(** * Sales-forecast mini app (src/app.py): shallow embedding and properties

    The script reads an uploaded table, builds the time series of one
    product, asks a forecasting engine (Prophet) for the next months and
    shows / exports the rounded predictions.  The embedding follows the
    script top to bottom.  pandas values are modelled as follows:

    - a Python [str] is its list of Unicode code points;
    - a day-precision [Timestamp] is a (year, month, day) triple ordered
      lexicographically, [NaT] is [None];
    - the integer column [quantidade] holds mathematical integers;
    - the engine's float outputs are rationals (every finite double is one);
    - what Streamlit shows and what is asked of the engine is recorded, in
      order, in a log of events. *)

From Stdlib Require Import List ZArith NArith QArith Qabs Bool Lia.
From Stdlib Require Import Ascii String Sorted Decimal Permutation.
From Stdlib.Strings Require Import Byte.
Import ListNotations.

Local Open Scope Z_scope.

(** ** Python strings *)

Module Text.

(** A [str] is a sequence of code points. *)
Definition str := list N.

Definition eqb (a b : str) : bool :=
  if list_eq_dec N.eq_dec a b then true else false.

(** An ASCII literal of the script, as code points. *)
Fixpoint lit (s : string) : str :=
  match s with
  | EmptyString => []
  | String c r => N_of_ascii c :: lit r
  end.

Fixpoint uint_chars (u : Decimal.uint) : str :=
  match u with
  | Decimal.Nil => []
  | Decimal.D0 r => 48%N :: uint_chars r
  | Decimal.D1 r => 49%N :: uint_chars r
  | Decimal.D2 r => 50%N :: uint_chars r
  | Decimal.D3 r => 51%N :: uint_chars r
  | Decimal.D4 r => 52%N :: uint_chars r
  | Decimal.D5 r => 53%N :: uint_chars r
  | Decimal.D6 r => 54%N :: uint_chars r
  | Decimal.D7 r => 55%N :: uint_chars r
  | Decimal.D8 r => 56%N :: uint_chars r
  | Decimal.D9 r => 57%N :: uint_chars r
  end.

(** [str(n)] for an int. *)
Definition of_Z (z : Z) : str :=
  if z <? 0 then 45%N :: uint_chars (N.to_uint (Z.to_N (- z)))
  else uint_chars (N.to_uint (Z.to_N z)).

(** [s.zfill(w)] for the digit strings [strftime] pads. *)
Definition zfill (w : nat) (s : str) : str :=
  repeat 48%N (w - List.length s) ++ s.

(** [sep.join(parts)] *)
Fixpoint join (sep : str) (parts : list str) : str :=
  match parts with
  | [] => []
  | [p] => p
  | p :: rest => p ++ sep ++ join sep rest
  end.

(** *** [str.encode("utf-8")] *)

Definition byte_of (n : N) : byte :=
  match Byte.of_N n with Some b => b | None => x00 end.

(** One code point; surrogates and values above U+10FFFF cannot be encoded
    (Python raises [UnicodeEncodeError]). *)
Definition encode_point (c : N) : option (list byte) :=
  (if c <? 128 then Some [byte_of c]
   else if c <? 2048 then
     Some [byte_of (192 + c / 64); byte_of (128 + c mod 64)]
   else if (55296 <=? c) && (c <=? 57343) then None
   else if c <? 65536 then
     Some [byte_of (224 + c / 4096); byte_of (128 + (c / 64) mod 64);
           byte_of (128 + c mod 64)]
   else if c <? 1114112 then
     Some [byte_of (240 + c / 262144); byte_of (128 + (c / 4096) mod 64);
           byte_of (128 + (c / 64) mod 64); byte_of (128 + c mod 64)]
   else None)%N.

Fixpoint encode_utf8 (s : str) : option (list byte) :=
  match s with
  | [] => Some []
  | c :: r =>
      match encode_point c, encode_utf8 r with
      | Some bs, Some rest => Some (bs ++ rest)
      | _, _ => None
      end
  end.

End Text.

Abbreviation str := Text.str.

(** ** Timestamps *)

Record Timestamp := mkTs { year : Z; month : Z; day : Z }.

Module Ts.

Definition compare (a b : Timestamp) : comparison :=
  match year a ?= year b with
  | Eq => match month a ?= month b with
          | Eq => day a ?= day b
          | c => c
          end
  | c => c
  end.

Definition lt (a b : Timestamp) : Prop := compare a b = Lt.

Definition eqb (a b : Timestamp) : bool :=
  match compare a b with Eq => true | _ => false end.

(** The month of a timestamp, counted from year 0. *)
Definition month_index (t : Timestamp) : Z := year t * 12 + (month t - 1).

(** The first day of month number [i]. *)
Definition of_month_index (i : Z) : Timestamp :=
  mkTs (i / 12) (i mod 12 + 1) 1.

(** Day component truncated: the first day of the timestamp's month. *)
Definition month_floor (t : Timestamp) : Timestamp :=
  mkTs (year t) (month t) 1.

Definition is_month_start (t : Timestamp) : bool := day t =? 1.

(** [strftime] with the three formats the script uses.  A pandas timestamp
    lies between the years 1677 and 2262, so [%Y] is the year's decimal
    digits; [%m] and [%d] are padded to two. *)
Definition strftime_Ym (t : Timestamp) : str :=
  Text.of_Z (year t) ++ Text.lit "-" ++ Text.zfill 2 (Text.of_Z (month t)).

Definition strftime_Ymd (t : Timestamp) : str :=
  Text.of_Z (year t) ++ Text.lit "-" ++ Text.zfill 2 (Text.of_Z (month t))
  ++ Text.lit "-" ++ Text.zfill 2 (Text.of_Z (day t)).

Definition strftime_mY (t : Timestamp) : str :=
  Text.zfill 2 (Text.of_Z (month t)) ++ Text.lit "/" ++ Text.of_Z (year t).

End Ts.

(** ** Data *)

(** One row of the uploaded table, restricted to the three columns the
    script reads.  [D] is the type of the [data_ref] cell: a CSV field
    before [pd.to_datetime] (an empty field is [NaN], here [None]) and a
    timestamp or [NaT] after it. *)
Record Row (D : Type) := mkRow {
  data_ref : D;
  produto : str;
  quantidade : Z
}.
Arguments mkRow {D}.
Arguments data_ref {D}.
Arguments produto {D}.
Arguments quantidade {D}.

(** A frame: the names of the columns present and the rows.  A cell of a
    column that is not in [columns] is never read: the script raises
    [KeyError] first. *)
Record DataFrame (D : Type) := mkDF {
  columns : list str;
  rows : list (Row D)
}.
Arguments mkDF {D}.
Arguments columns {D}.
Arguments rows {D}.

Definition len {D} (df : DataFrame D) : nat := List.length (rows df).

(** A row of the engine's prediction frame; [V] is [Q] as the engine
    returns it and [Z] after [.round().astype(int)]. *)
Record Pred (V : Type) := mkPred {
  ds : Timestamp;
  yhat : V;
  yhat_lower : V;
  yhat_upper : V
}.
Arguments mkPred {V}.
Arguments ds {V}.
Arguments yhat {V}.
Arguments yhat_lower {V}.
Arguments yhat_upper {V}.

(** The product's series: columns [ds] and [y]. *)
Definition Serie := list (Timestamp * Z).

(** A row of [tabela_prev]. *)
Record PrevRow := mkPrev {
  Data : str;
  Previsao : Z;
  Limite_inferior : Z;
  Limite_superior : Z
}.

(** The forecasting engine (Prophet), as the three calls the script makes.
    [fit] and [predict] may raise; [make_future_dataframe] is always
    called with [freq="MS"]. *)
Record Engine := mkEngine {
  model : Type;
  fit : Serie -> option model;
  make_future_dataframe : model -> Z -> list Timestamp;
  predict : model -> list Timestamp -> option (list (Pred Q))
}.

(** [os.linesep], which [to_csv] ends its lines with. *)
Inductive platform := Posix | Windows.

Definition linesep (p : platform) : str :=
  match p with
  | Posix => [10%N]
  | Windows => [13%N; 10%N]
  end.

Inductive exn :=
| KeyError (col : str)
| DateParseError (raw : str)
| EngineError
| UnicodeEncodeError.

(** What a run shows or asks, in order. *)
Inductive event :=
| StInfoUpload
| StDataframePreview (df_preview : list (Row (option str)))
| StDataframeSerie (serie_display : list (str * Z))
| StWarningShortHistory
| StInfoClick
| ProphetFit (serie : Serie)
| ProphetMakeFuture (periods : Z)
| ProphetPredict (futuro : list Timestamp)
| StDataframePrev (tabela_prev : list PrevRow)
| StTableResumida (tabela_resumida : list (option str * Z))
| StDownloadButton (data : list byte) (file_name : str)
| StPyplot (previsao : list (Pred Q)) (serie : Serie).

(** ** Effects: a log of events and exceptions *)

Definition M (A : Type) : Type := list event * (exn + A).

Definition ret {A} (a : A) : M A := ([], inr a).

Definition bind {A B} (m : M A) (f : A -> M B) : M B :=
  match m with
  | (l, inl e) => (l, inl e)
  | (l, inr a) => let (l', r) := f a in (l ++ l', r)
  end.

Definition emit (e : event) : M unit := ([e], inr tt).

Definition raise {A} (e : exn) : M A := ([], inl e).

Definition or_raise {A} (e : exn) (o : option A) : M A :=
  match o with
  | Some a => ret a
  | None => raise e
  end.

Notation "x <- m ;; k" := (bind m (fun x => k))
  (at level 61, m at next level, right associativity).
Notation "m ;; k" := (bind m (fun _ => k))
  (at level 61, right associativity).

Fixpoint mapM {A B} (f : A -> M B) (l : list A) : M (list B) :=
  match l with
  | [] => ret []
  | a :: r => b <- f a ;; bs <- mapM f r ;; ret (b :: bs)
  end.

(** ** pandas operations *)

Definition has_column {D} (df : DataFrame D) (c : str) : bool :=
  existsb (Text.eqb c) (columns df).

(** [df[c]]: raises [KeyError] when the column is absent. *)
Definition getitem {D} (df : DataFrame D) (c : str) : M unit :=
  if has_column df c then ret tt else raise (KeyError c).

(** [df.tail(n)] is [df.iloc[0:0]] for [n == 0] and [df.iloc[-n:]] otherwise. *)
Definition tail {A} (n : Z) (l : list A) : list A :=
  if n =? 0 then []
  else if 0 <? n then skipn (List.length l - Z.to_nat n) l
  else skipn (Z.to_nat (- n)) l.

(** [df[df["produto"] == produto_selecionado]] *)
Definition filter_produto {D} (produto_selecionado : str) (rs : list (Row D))
  : list (Row D) :=
  filter (fun r => Text.eqb (produto r) produto_selecionado) rs.

(** One more row for key [k] in a result kept sorted by key. *)
Fixpoint add_group (k : Timestamp) (q : Z) (acc : Serie) : Serie :=
  match acc with
  | [] => [(k, q)]
  | (k', s) :: rest =>
      match Ts.compare k k' with
      | Lt => (k, q) :: acc
      | Eq => (k', s + q) :: rest
      | Gt => (k', s) :: add_group k q rest
      end
  end.

(** [.groupby("data_ref", as_index=False)["quantidade"].sum()]: one row per
    distinct key, keys ascending ([sort=True]), rows whose key is [NaT]
    left out ([dropna=True]). *)
Definition group_step (acc : Serie) (r : Row (option Timestamp)) : Serie :=
  match data_ref r with
  | Some k => add_group k (quantidade r) acc
  | None => acc
  end.

Definition groupby_sum (rs : list (Row (option Timestamp))) : Serie :=
  fold_left group_step rs [].

(** [Series.round().astype(int)]: numpy rounds to the nearest integer and a
    tie to the even one. *)
Definition round_astype_int (x : Q) : Z :=
  let n := Qnum x in
  let d := Z.pos (Qden x) in
  let f := n / d in
  match 2 * (n mod d) ?= d with
  | Lt => f
  | Gt => f + 1
  | Eq => if Z.even f then f else f + 1
  end.

(** *** [DataFrame.to_csv(index=False)] *)

Definition csv_special (c : N) : bool :=
  (c =? 44)%N || (c =? 34)%N || (c =? 13)%N || (c =? 10)%N.

(** [csv.QUOTE_MINIMAL] *)
Definition quote_minimal (f : str) : str :=
  if existsb csv_special f
  then 34%N :: flat_map (fun c => if (c =? 34)%N then [34%N; 34%N] else [c]) f
       ++ [34%N]
  else f.

Definition csv_line (p : platform) (fields : list str) : str :=
  Text.join (Text.lit ",") (map quote_minimal fields) ++ linesep p.

Definition col_Data : str := Text.lit "Data".
Definition col_Previsao : str :=
  Text.lit "Previs" ++ [227%N] ++ Text.lit "o (unidades)".
Definition col_Limite_inferior : str := Text.lit "Limite inferior".
Definition col_Limite_superior : str := Text.lit "Limite superior".

Definition tabela_prev_columns : list str :=
  [col_Data; col_Previsao; col_Limite_inferior; col_Limite_superior].

Definition csv_row (r : PrevRow) : list str :=
  [Data r; Text.of_Z (Previsao r); Text.of_Z (Limite_inferior r);
   Text.of_Z (Limite_superior r)].

Definition to_csv (p : platform) (t : list PrevRow) : str :=
  csv_line p tabela_prev_columns ++ flat_map (fun r => csv_line p (csv_row r)) t.

(** ** The script *)

Section App.

(** [pd.to_datetime] on one text cell; the first argument is the whole
    column, from which pandas may infer the format.  [None]: the cell does
    not parse. *)
Variable parse_datetime : list (option str) -> str -> option Timestamp.
Variable E : Engine.
Variable os : platform.

(** What [pd.to_datetime] makes of a cell, and the cells it accepts.  An
    empty cell ([NaN]) is accepted although it holds no date: it becomes
    [NaT] and nothing is raised; a text cell is accepted when it parses. *)
Definition cell_value (col : list (option str)) (c : option str) : option Timestamp :=
  match c with
  | None => None
  | Some s1 => parse_datetime col s1
  end.

Definition cell_accepted (col : list (option str)) (c : option str) : Prop :=
  match c with
  | None => True
  | Some s1 => parse_datetime col s1 <> None
  end.

Definition to_datetime_cell (col : list (option str)) (c : option str)
  : M (option Timestamp) :=
  match c with
  | None => ret None
  | Some s1 =>
      match parse_datetime col s1 with
      | Some t => ret (Some t)
      | None => raise (DateParseError s1)
      end
  end.

(** [pd.to_datetime(column)]: [NaN] becomes [NaT]; a text cell that does
    not parse raises. *)
Definition to_datetime (col : list (option str)) : M (list (option Timestamp)) :=
  mapM (to_datetime_cell col) col.

(** Lines 65-68: [df["data_ref"] = pd.to_datetime(df["data_ref"])]. *)
Definition normalize (df : DataFrame (option str))
  : M (DataFrame (option Timestamp)) :=
  getitem df (Text.lit "data_ref") ;;
  dts <- to_datetime (map data_ref (rows df)) ;;
  ret (mkDF (columns df)
            (map (fun rd => mkRow (snd rd) (produto (fst rd)) (quantidade (fst rd)))
                 (combine (rows df) dts))).

(** Lines 73-74: the preview shows [data_ref] as [%Y-%m]. *)
Definition df_preview (df : DataFrame (option Timestamp)) : list (Row (option str)) :=
  map (fun r => mkRow (option_map Ts.strftime_Ym (data_ref r)) (produto r) (quantidade r))
      (rows df).

(** Lines 100-107. *)
Definition serie_of (df : DataFrame (option Timestamp)) (produto_selecionado : str)
  : Serie :=
  groupby_sum (filter_produto produto_selecionado (rows df)).

(** Lines 110-115. *)
Definition serie_display (serie : Serie) : list (str * Z) :=
  map (fun e => (Ts.strftime_Ym (fst e), snd e)) serie.

(** Lines 143-148. *)
Definition arredondar (r : Pred Q) : Pred Z :=
  mkPred (ds r) (round_astype_int (yhat r)) (round_astype_int (yhat_lower r))
         (round_astype_int (yhat_upper r)).

Definition previsao_futuro (meses_prever : Z) (previsao : list (Pred Q))
  : list (Pred Z) :=
  map arredondar (tail meses_prever previsao).

(** Lines 151-156. *)
Definition tabela_prev (futuro : list (Pred Z)) : list PrevRow :=
  map (fun r => mkPrev (Ts.strftime_Ymd (ds r)) (yhat r) (yhat_lower r) (yhat_upper r))
      futuro.

Definition file_name (produto_selecionado : str) : str :=
  Text.lit "previsao_" ++ produto_selecionado ++ Text.lit ".csv".

(** Lines 132-227: the body under [if st.button("Gerar previsao")]. *)
Definition gerar_previsao (produto_selecionado : str) (meses_prever : Z)
    (serie : Serie) : M unit :=
  emit (ProphetFit serie) ;;
  modelo <- or_raise EngineError (fit E serie) ;;
  emit (ProphetMakeFuture meses_prever) ;;
  let futuro := make_future_dataframe E modelo meses_prever in
  emit (ProphetPredict futuro) ;;
  previsao <- or_raise EngineError (predict E modelo futuro) ;;
  let tab := tabela_prev (previsao_futuro meses_prever previsao) in
  emit (StDataframePrev tab) ;;
  datas <- to_datetime (map (fun r => Some (Data r)) tab) ;;
  emit (StTableResumida
          (combine (map (option_map Ts.strftime_mY) datas) (map Previsao tab))) ;;
  csv_prev <- or_raise UnicodeEncodeError (Text.encode_utf8 (to_csv os tab)) ;;
  emit (StDownloadButton csv_prev (file_name produto_selecionado)) ;;
  emit (StPyplot previsao serie).

(** Lines 123-229: the forecast section. *)
Definition secao_previsao (produto_selecionado : str) (meses_prever : Z)
    (serie : Serie) (clicked : bool) : M unit :=
  if (List.length serie <? 3)%nat then emit StWarningShortHistory
  else if clicked then gerar_previsao produto_selecionado meses_prever serie
  else emit StInfoClick.

(** The whole script, for one state of the widgets: the uploaded table
    (as [pd.read_csv] returns it), the product of the select box, the
    slider's months and whether the button was clicked.  The run starts
    once [pd.read_csv] has returned (a file it cannot read is not a
    table), on a table whose product cells are text and whose quantities
    are integers. *)
Definition app (arquivo : option (DataFrame (option str)))
    (produto_selecionado : str) (meses_prever : Z) (clicked : bool) : M unit :=
  match arquivo with
  | None => emit StInfoUpload
  | Some raw =>
      df <- normalize raw ;;
      emit (StDataframePreview (df_preview df)) ;;
      getitem df (Text.lit "produto") ;;
      getitem df (Text.lit "quantidade") ;;
      let serie := serie_of df produto_selecionado in
      emit (StDataframeSerie (serie_display serie)) ;;
      secao_previsao produto_selecionado meses_prever serie clicked
  end.

End App.

(** ** The engine's contract *)

(** Modelled from the spec: the engine's "future index" generator, which is
    not part of the script.  At monthly periodicity anchored to month
    start it yields the [periods] month starts that follow the month of
    the last historical timestamp. *)
Definition future_index (last_date : Timestamp) (periods : Z) : list Timestamp :=
  map (fun k => Ts.of_month_index (Ts.month_index last_date + Z.of_nat k))
      (seq 1 (Z.to_nat periods)).

Definition last_date (serie : Serie) : Timestamp :=
  last (map fst serie) (mkTs 0 1 1).

(** Modelled from the spec: what the script relies on from the engine.  The
    frame to predict on is the history followed by the future index, and
    [predict] answers with one row per timestamp asked, in the same order. *)
Record EngineContract (E : Engine) : Prop := {
  future_appended : forall serie m periods,
    fit E serie = Some m ->
    make_future_dataframe E m periods
    = map fst serie ++ future_index (last_date serie) periods;
  predict_rows : forall m futuro previsao,
    predict E m futuro = Some previsao -> map ds previsao = futuro
}.

(** ** The claims of the specification that the script does not meet, in
    the specification's words *)

(** "Groups records by calendar month (truncating the day component)". *)
Definition serie_mensal (df : DataFrame (option Timestamp)) (produto_selecionado : str)
  : Serie :=
  groupby_sum
    (map (fun r => mkRow (option_map Ts.month_floor (data_ref r)) (produto r) (quantidade r))
         (filter_produto produto_selecionado (rows df))).

(** "Standard round-half-away-from-zero". *)
Definition round_half_away (x : Q) : Z :=
  let n := Qnum x in
  let d := Z.pos (Qden x) in
  if 0 <=? n then (2 * n + d) / (2 * d) else - ((2 * (- n) + d) / (2 * d)).

(** ** Concrete inputs *)

Module Sample.

Definition digit (c : N) : option Z :=
  if ((48 <=? c) && (c <=? 57))%N then Some (Z.of_N c - 48) else None.

Fixpoint number (acc : Z) (s : str) : option Z :=
  match s with
  | [] => Some acc
  | c :: r => match digit c with
              | Some d => number (acc * 10 + d) r
              | None => None
              end
  end.

(** A parser for [YYYY-MM-DD] cells. *)
Definition parse_iso (_ : list (option str)) (s : str) : option Timestamp :=
  match s with
  | [y1; y2; y3; y4; 45%N; m1; m2; 45%N; d1; d2] =>
      match number 0 [y1; y2; y3; y4], number 0 [m1; m2], number 0 [d1; d2] with
      | Some y, Some m, Some d => Some (mkTs y m d)
      | _, _, _ => None
      end
  | _ => None
  end.

(** An engine that follows the contract and predicts the same three
    values for every timestamp. *)
Definition const_engine (v lo hi : Q) : Engine :=
  mkEngine Serie
    (fun serie => Some serie)
    (fun m periods => map fst m ++ future_index (last_date m) periods)
    (fun _ futuro => Some (map (fun t => mkPred t v lo hi) futuro)).

Definition cafe : str := Text.lit "cafe".
Definition bolo : str := Text.lit "bolo".

Definition row (d : string) (p : str) (q : Z) : Row (option str) :=
  mkRow (Some (Text.lit d)) p q.

Definition header : list str :=
  [Text.lit "data_ref"; Text.lit "produto"; Text.lit "quantidade"].

(** Consolidated monthly data: one date per month, always its first day. *)
Definition mensal : DataFrame (option str) :=
  mkDF header
    [row "2024-01-01" cafe 10; row "2024-02-01" cafe 12; row "2024-01-01" bolo 5;
     row "2024-03-01" cafe 9; row "2024-02-01" cafe 1].

(** Day-level data: two sales of the same product in January. *)
Definition diario : DataFrame (option str) :=
  mkDF header
    [row "2024-01-05" cafe 3; row "2024-01-20" cafe 4; row "2024-02-15" cafe 6;
     row "2024-03-15" cafe 2].

Definition sem_data : DataFrame (option str) :=
  mkDF [Text.lit "produto"; Text.lit "quantidade"] [row "2024-01-01" cafe 10].



Definition data_ruim : DataFrame (option str) :=
  mkDF header [row "2024-01-01" cafe 10; row "ontem" cafe 12].

Definition engine : Engine := const_engine (5 # 2) (1 # 2) (7 # 2).

(** An engine whose lower bound lies above its upper bound. *)
Definition engine_cruzado : Engine := const_engine 4 5 3.


Definition serie_cafe : Serie :=
  [(mkTs 2024 1 1, 10); (mkTs 2024 2 1, 13); (mkTs 2024 3 1, 9)].

Definition serie_diario : Serie :=
  [(mkTs 2024 1 5, 3); (mkTs 2024 1 20, 4); (mkTs 2024 2 15, 6); (mkTs 2024 3 15, 2)].

(** What a constant engine predicts for [serie_cafe] and [periods] more months. *)
Definition previsao_cafe (v lo hi : Q) (periods : Z) : list (Pred Q) :=
  map (fun t => mkPred t v lo hi)
      (map fst serie_cafe ++ future_index (mkTs 2024 3 1) periods).

(** An engine whose fit step always raises, and one whose predict step does. *)
Definition engine_sem_fit : Engine :=
  mkEngine unit (fun _ => None) (fun _ _ => []) (fun _ _ => None).

Definition engine_sem_predict : Engine :=
  mkEngine Serie (fun serie => Some serie)
    (fun m periods => map fst m ++ future_index (last_date m) periods)
    (fun _ _ => None).

(** The frame after [pd.to_datetime]. *)
Definition typed (raw : DataFrame (option str)) : DataFrame (option Timestamp) :=
  match normalize parse_iso raw with
  | (_, inr df) => df
  | (_, inl _) => mkDF [] []
  end.

End Sample.

(** ** Vocabulary of the specification *)

(** [MalformedInput]: a required column is missing or a date does not parse. *)
Definition MalformedInput (e : exn) : Prop :=
  match e with
  | KeyError _ | DateParseError _ => True
  | _ => False
  end.

Definition is_engine_call (ev : event) : bool :=
  match ev with
  | ProphetFit _ | ProphetMakeFuture _ | ProphetPredict _ => true
  | _ => false
  end.

(** The outputs of a forecast: the two tables, the export and the chart. *)
Definition is_forecast_output (ev : event) : bool :=
  match ev with
  | StDataframePrev _ | StTableResumida _ | StDownloadButton _ _ | StPyplot _ _ => true
  | _ => false
  end.


(** ** What it is to group rows *)

(** The sum of [quantidade] over the rows whose date has key [k]. *)
Definition key_total (key : Timestamp -> Timestamp) (k : Timestamp)
    (rs : list (Row (option Timestamp))) : Z :=
  fold_right Z.add 0
    (map quantidade
       (filter (fun r => match data_ref r with
                         | Some d => Ts.eqb (key d) k
                         | None => false
                         end) rs)).

(** [s] is the rows [rs] grouped by [key]: keys strictly increasing, a key
    exactly for each key value present in the rows, and for each key the
    sum of its rows. *)
Definition grouped_by (key : Timestamp -> Timestamp)
    (rs : list (Row (option Timestamp))) (s : Serie) : Prop :=
  StronglySorted Ts.lt (map fst s) /\
  (forall k, In k (map fst s) <->
             exists r, In r rs /\ option_map key (data_ref r) = Some k) /\
  (forall k y, In (k, y) s -> y = key_total key k rs).

(** ** The export, byte by byte *)

(** The bytes of a string of code points below 128. *)
Definition ascii_bytes (s1 : str) : list byte := map Text.byte_of s1.

Definition header_bytes (p : platform) : list byte :=
  list_byte_of_string "Data,Previsão (unidades),Limite inferior,Limite superior"
  ++ ascii_bytes (linesep p).

(** The line of one future period: date, point estimate and bounds,
    comma separated, unquoted. *)
Definition row_bytes (p : platform) (r : Pred Z) : list byte :=
  ascii_bytes
    (Ts.strftime_Ymd (ds r) ++ Text.lit "," ++ Text.of_Z (yhat r) ++ Text.lit ","
     ++ Text.of_Z (yhat_lower r) ++ Text.lit "," ++ Text.of_Z (yhat_upper r)
     ++ linesep p).

Definition csv_bytes (p : platform) (futuro : list (Pred Z)) : list byte :=
  header_bytes p ++ flat_map (row_bytes p) futuro.

(** The characters of a rendered date or integer: a digit or a hyphen. *)
Definition date_char (c : N) : bool :=
  ((c =? 45) || ((48 <=? c) && (c <=? 57)))%N.

(** The number of line ends in a text. *)
Definition line_count (s1 : str) : nat := count_occ N.eq_dec s1 10%N.

(** ** Rounding to the nearest integer *)

(** [z] is an integer nearest to [x], the even one when [x] lies halfway
    between two integers. *)
Definition nearest_even (x : Q) (z : Z) : Prop :=
  (inject_Z z - (1 # 2) <= x)%Q /\ (x <= inject_Z z + (1 # 2))%Q
  /\ ((x == inject_Z z - (1 # 2))%Q \/ (x == inject_Z z + (1 # 2))%Q
      -> Z.even z = true).

(** One rounded row against the engine's row: same period, each of the
    three values rounded on its own. *)
Definition rounded_row (raw : Pred Q) (r : Pred Z) : Prop :=
  ds r = ds raw
  /\ nearest_even (yhat raw) (yhat r)
  /\ nearest_even (yhat_lower raw) (yhat_lower r)
  /\ nearest_even (yhat_upper raw) (yhat_upper r).

(** ** The product list (line 81) *)

(** Python's order on [str]: lexicographic on code points. *)
Fixpoint str_compare (a b : str) : comparison :=
  match a, b with
  | [], [] => Eq
  | [], _ :: _ => Lt
  | _ :: _, [] => Gt
  | x :: a', y :: b' =>
      match N.compare x y with
      | Eq => str_compare a' b'
      | c => c
      end
  end.

Definition str_lt (a b : str) : Prop := str_compare a b = Lt.

(** [Series.unique()]: the distinct values, in order of first appearance. *)
Fixpoint unique (l : list str) : list str :=
  match l with
  | [] => []
  | x :: r => x :: filter (fun y => negb (Text.eqb y x)) (unique r)
  end.

(** [sorted(...)]: a stable sort, here by insertion. *)
Fixpoint insert_str (x : str) (l : list str) : list str :=
  match l with
  | [] => [x]
  | y :: r =>
      match str_compare x y with
      | Gt => y :: insert_str x r
      | _ => x :: l
      end
  end.

Definition sorted (l : list str) : list str := fold_right insert_str [] l.

(** [lista_produtos = sorted(df["produto"].unique())] *)
Definition lista_produtos {D} (df : DataFrame D) : list str :=
  sorted (unique (map produto (rows df))).

(** ** Further vocabulary *)

(** A row whose date is not [NaT]. *)
Definition dated (r : Row (option Timestamp)) : bool :=
  match data_ref r with
  | Some _ => true
  | None => false
  end.

(** The sum of the [y] column of a series. *)
Definition serie_total (s1 : Serie) : Z := fold_right Z.add 0 (map snd s1).

(** The sum of the [quantidade] column of some rows. *)
Definition quantidade_total {D} (rs : list (Row D)) : Z :=
  fold_right Z.add 0 (map quantidade rs).

(** The engine raises in its fit or in its predict step. *)
Definition engine_fails (E : Engine) (serie : Serie) (H : Z) : Prop :=
  fit E serie = None
  \/ exists m, fit E serie = Some m
               /\ predict E m (make_future_dataframe E m H) = None.

(** * Properties *)

(** ** Strings *)

Module TextFacts.

Lemma text_eqb_eq a b : Text.eqb a b = true <-> a = b.
Proof.
  unfold Text.eqb. destruct (list_eq_dec N.eq_dec a b); intuition congruence.
Qed.

Lemma text_eqb_refl a : Text.eqb a a = true.
Proof. now apply text_eqb_eq. Qed.

End TextFacts.

(** ** The order on timestamps *)

Module TsFacts.

Lemma compare_eq a b : Ts.compare a b = Eq <-> a = b.
Proof.
  unfold Ts.compare. destruct a as [y m d], b as [y' m' d']; simpl. split.
  - destruct (Z.compare_spec y y'); try discriminate.
    destruct (Z.compare_spec m m'); try discriminate.
    destruct (Z.compare_spec d d'); try discriminate.
    intros _. congruence.
  - intros H. inversion H; subst. now rewrite !Z.compare_refl.
Qed.

Lemma compare_refl a : Ts.compare a a = Eq.
Proof. now apply compare_eq. Qed.

Lemma compare_antisym a b : Ts.compare b a = CompOpp (Ts.compare a b).
Proof.
  unfold Ts.compare.
  rewrite (Z.compare_antisym (year a)), (Z.compare_antisym (month a)),
    (Z.compare_antisym (day a)).
  destruct (year a ?= year b), (month a ?= month b), (day a ?= day b); reflexivity.
Qed.

Lemma lt_spec a b :
  Ts.lt a b <->
  year a < year b \/
  (year a = year b /\ (month a < month b \/ (month a = month b /\ day a < day b))).
Proof.
  unfold Ts.lt, Ts.compare.
  destruct (Z.compare_spec (year a) (year b));
    destruct (Z.compare_spec (month a) (month b));
    destruct (Z.compare_spec (day a) (day b));
    split; intros; try discriminate; try reflexivity; lia.
Qed.

Lemma lt_trans a b c : Ts.lt a b -> Ts.lt b c -> Ts.lt a c.
Proof. rewrite !lt_spec. lia. Qed.

Lemma lt_irrefl a : ~ Ts.lt a a.
Proof. rewrite lt_spec. lia. Qed.

Lemma gt_lt a b : Ts.compare a b = Gt -> Ts.lt b a.
Proof. unfold Ts.lt. rewrite (compare_antisym a b). now intros ->. Qed.

Lemma eqb_eq a b : Ts.eqb a b = true <-> a = b.
Proof.
  unfold Ts.eqb. rewrite <- compare_eq.
  destruct (Ts.compare a b); intuition discriminate.
Qed.

Lemma eqb_refl a : Ts.eqb a a = true.
Proof. now apply eqb_eq. Qed.

Lemma eqb_neq a b : a <> b -> Ts.eqb a b = false.
Proof.
  intros H. destruct (Ts.eqb a b) eqn:E; [|reflexivity].
  apply eqb_eq in E. contradiction.
Qed.

(** Month starts are ordered as their month numbers. *)
Lemma of_month_index_lt i j :
  i < j -> Ts.lt (Ts.of_month_index i) (Ts.of_month_index j).
Proof.
  intros H. apply lt_spec. unfold Ts.of_month_index; simpl.
  pose proof (Z.div_mod i 12 ltac:(lia)).
  pose proof (Z.div_mod j 12 ltac:(lia)).
  pose proof (Z.mod_pos_bound i 12 ltac:(lia)).
  pose proof (Z.mod_pos_bound j 12 ltac:(lia)).
  lia.
Qed.

Lemma month_index_of_month_index i : Ts.month_index (Ts.of_month_index i) = i.
Proof.
  unfold Ts.month_index, Ts.of_month_index; simpl.
  pose proof (Z.div_mod i 12 ltac:(lia)). lia.
Qed.

End TsFacts.

(** ** Grouping *)

Section Grouping.

Lemma add_group_keys k q acc x :
  In x (map fst (add_group k q acc)) <-> x = k \/ In x (map fst acc).
Proof.
  induction acc as [|[k' s] rest IH]; simpl.
  - intuition.
  - destruct (Ts.compare k k') eqn:C; simpl.
    + apply TsFacts.compare_eq in C. subst k'. intuition.
    + intuition.
    + rewrite IH. intuition.
Qed.

Lemma add_group_sorted k q acc :
  StronglySorted Ts.lt (map fst acc) ->
  StronglySorted Ts.lt (map fst (add_group k q acc)).
Proof.
  induction acc as [|[k' s] rest IH]; simpl; intros HS.
  - repeat constructor.
  - inversion HS as [|? ? HS' HF]; subst.
    destruct (Ts.compare k k') eqn:C; simpl.
    + now constructor.
    + constructor; [exact HS|]. constructor; [exact C|].
      rewrite Forall_forall in *. intros x Hx.
      eapply TsFacts.lt_trans; [exact C | now apply HF].
    + constructor; [now apply IH|].
      rewrite Forall_forall in *. intros x Hx.
      apply add_group_keys in Hx. destruct Hx as [->|Hx].
      * now apply TsFacts.gt_lt.
      * now apply HF.
Qed.

(** Where an entry of the grown result comes from. *)
Lemma add_group_entries k q acc k0 y :
  StronglySorted Ts.lt (map fst acc) ->
  In (k0, y) (add_group k q acc) ->
  (k0 = k /\ ((~ In k (map fst acc) /\ y = q) \/ exists s, In (k, s) acc /\ y = s + q))
  \/ (k0 <> k /\ In (k0, y) acc).
Proof.
  induction acc as [|[k' s] rest IH]; simpl; intros HS HIn.
  - destruct HIn as [E|[]]. injection E as E1 E2; subst k0 y. left. split; [reflexivity|]. left. tauto.
  - inversion HS as [|? ? HS' HF]; subst. rewrite Forall_forall in HF.
    destruct (Ts.compare k k') eqn:C.
    + apply TsFacts.compare_eq in C. subst k'.
      destruct HIn as [E|HIn].
      * injection E as E1 E2; subst k0 y. left. split; [reflexivity|]. right. exists s. tauto.
      * right. split; [|tauto]. intros ->.
        apply (TsFacts.lt_irrefl k). apply HF.
        change k with (fst (k, y)). now apply in_map.
    + destruct HIn as [E|HIn].
      * injection E as E1 E2; subst k0 y. left. split; [reflexivity|]. left. split; [|reflexivity].
        intros [E'|Hk].
        -- subst. now rewrite TsFacts.compare_refl in C.
        -- apply (TsFacts.lt_irrefl k). eapply TsFacts.lt_trans; [exact C|now apply HF].
      * right. split; [|exact HIn]. intros ->.
        assert (Hk : In k (k' :: map fst rest)).
        { change (k' :: map fst rest) with (map fst ((k', s) :: rest)).
          change k with (fst (k, y)). now apply in_map. }
        destruct Hk as [E'|Hk].
        -- subst. now rewrite TsFacts.compare_refl in C.
        -- apply (TsFacts.lt_irrefl k). eapply TsFacts.lt_trans; [exact C|now apply HF].
    + destruct HIn as [E|HIn].
      * injection E as E1 E2; subst k0 y. right. split; [|tauto]. intros ->.
        now rewrite TsFacts.compare_refl in C.
      * destruct (IH HS' HIn) as [[-> [[Hn ->]|[s' [Hs' ->]]]]|[Hne Hin]].
        -- left. split; [reflexivity|]. left. split; [|reflexivity].
           intros [E'|Hk]; [|tauto]. subst. now rewrite TsFacts.compare_refl in C.
        -- left. split; [reflexivity|]. right. exists s'. tauto.
        -- right. tauto.
Qed.

Lemma key_total_app key k rs rs' :
  key_total key k (rs ++ rs') = key_total key k rs + key_total key k rs'.
Proof.
  unfold key_total. rewrite filter_app, map_app.
  induction (map quantidade (filter _ rs)) as [|a l IH]; simpl; lia.
Qed.

Lemma key_total_absent key k rs :
  (forall r, In r rs -> option_map key (data_ref r) <> Some k) ->
  key_total key k rs = 0.
Proof.
  unfold key_total. induction rs as [|r rs IH]; simpl; intros H; [reflexivity|].
  destruct (data_ref r) as [d|] eqn:Ed.
  - rewrite TsFacts.eqb_neq.
    + apply IH. intros r' Hr'. apply H. now right.
    + intros E. apply (H r (or_introl eq_refl)). rewrite Ed. simpl. now rewrite E.
  - apply IH. intros r' Hr'. apply H. now right.
Qed.

Lemma fold_grouped rs : forall seen acc,
  grouped_by (fun d => d) seen acc ->
  grouped_by (fun d => d) (seen ++ rs) (fold_left group_step rs acc).
Proof.
  induction rs as [|r rs IH]; intros seen acc Hacc; simpl.
  - now rewrite app_nil_r.
  - replace (seen ++ r :: rs) with ((seen ++ [r]) ++ rs)
      by now rewrite <- app_assoc.
    apply IH. destruct Hacc as (HS & HK & HV). unfold group_step.
    destruct (data_ref r) as [k|] eqn:Ek.
    + split; [now apply add_group_sorted|]. split.
      * intros x. rewrite add_group_keys, HK. split.
        -- intros [->|[r' [Hr' Hx]]].
           ++ exists r. split; [apply in_or_app; right; now left|].
              now rewrite Ek.
           ++ exists r'. split; [apply in_or_app; now left|exact Hx].
        -- intros [r' [Hr' Hx]]. apply in_app_or in Hr'.
           destruct Hr' as [Hr'|[<-|[]]].
           ++ right. now exists r'.
           ++ left. rewrite Ek in Hx. simpl in Hx. congruence.
      * intros k0 y Hy. rewrite key_total_app.
        assert (Hone : forall x, key_total (fun d => d) x [r]
                                 = if Ts.eqb k x then quantidade r else 0).
        { intros x. unfold key_total. simpl. rewrite Ek.
          destruct (Ts.eqb k x); simpl; lia. }
        rewrite Hone.
        destruct (add_group_entries _ _ _ _ _ HS Hy)
          as [[-> [[Hn ->]|[s [Hs ->]]]]|[Hne Hin]].
        -- rewrite TsFacts.eqb_refl, key_total_absent; [lia|].
           intros r' Hr' Hk. apply Hn. apply HK. now exists r'.
        -- rewrite TsFacts.eqb_refl. now rewrite (HV _ _ Hs).
        -- rewrite TsFacts.eqb_neq by congruence. rewrite (HV _ _ Hin). lia.
    + split; [exact HS|]. split.
      * intros x. rewrite HK. split.
        -- intros [r' [Hr' Hx]]. exists r'. split; [apply in_or_app; now left|exact Hx].
        -- intros [r' [Hr' Hx]]. apply in_app_or in Hr'.
           destruct Hr' as [Hr'|[<-|[]]].
           ++ now exists r'.
           ++ rewrite Ek in Hx. discriminate.
      * intros k0 y Hy. rewrite key_total_app, (HV _ _ Hy).
        unfold key_total at 3. simpl. rewrite Ek. simpl. lia.
Qed.

Lemma groupby_sum_grouped rs : grouped_by (fun d => d) rs (groupby_sum rs).
Proof.
  unfold groupby_sum. apply (fold_grouped rs [] []).
  split; [constructor|]. split.
  - intros k. simpl. split; [tauto|]. intros [r [[] _]].
  - intros k y [].
Qed.

End Grouping.

Lemma grouped_by_retimed key rs s :
  grouped_by (fun d => d)
    (map (fun r => mkRow (option_map key (data_ref r)) (produto r) (quantidade r)) rs) s ->
  grouped_by key rs s.
Proof.
  intros (HS & HK & HV). split; [exact HS|]. split.
  - intros k. rewrite HK. split.
    + intros [r' [Hr' Hk]]. apply in_map_iff in Hr'. destruct Hr' as [r [<- Hr]].
      exists r. split; [exact Hr|]. simpl in Hk.
      destruct (data_ref r); simpl in *; congruence.
    + intros [r [Hr Hk]]. eexists. split; [apply in_map; exact Hr|]. simpl.
      destruct (data_ref r); simpl in *; congruence.
  - intros k y Hy. rewrite (HV _ _ Hy). unfold key_total.
    clear. induction rs as [|r rs IH]; simpl; [reflexivity|].
    destruct (data_ref r) as [d|]; simpl; [|exact IH].
    destruct (Ts.eqb (key d) k); simpl; [now rewrite IH|exact IH].
Qed.

(** The specification's monthly series is the rows grouped by month. *)
Lemma serie_mensal_grouped df p :
  grouped_by Ts.month_floor (filter_produto p (rows df)) (serie_mensal df p).
Proof. apply grouped_by_retimed, groupby_sum_grouped. Qed.

(** On consolidated data (every date a month start) the script's series is
    the monthly one. *)
Lemma serie_of_consolidated df p :
  (forall r d, In r (rows df) -> data_ref r = Some d -> Ts.is_month_start d = true) ->
  serie_of df p = serie_mensal df p.
Proof.
  intros H. unfold serie_of, serie_mensal. f_equal.
  unfold filter_produto. induction (rows df) as [|r rs IH]; simpl; [reflexivity|].
  destruct (Text.eqb (produto r) p); simpl.
  - rewrite <- IH by (intros; eapply H; [right|]; eassumption). f_equal.
    destruct r as [[d|] pr q]; simpl; [|reflexivity].
    specialize (H _ d (or_introl eq_refl) eq_refl).
    unfold Ts.is_month_start in H. apply Z.eqb_eq in H.
    destruct d as [y m dd]; simpl in *. unfold Ts.month_floor; simpl. now subst.
  - apply IH. intros; eapply H; [right|]; eassumption.
Qed.

(** C1 (as amended): the series of a product has exactly one entry per
    distinct [data_ref] date among the product's records (a date is not
    truncated to its month), dates strictly increasing, each value the
    exact sum of [quantidade] of the product on that date, and no entry
    for a date without records. *)
Theorem C1_serie_groups_by_date (df : DataFrame (option Timestamp)) (p : str) :
  grouped_by (fun d => d) (filter_produto p (rows df)) (serie_of df p).
Proof. unfold serie_of. apply groupby_sum_grouped. Qed.

(** C1 (as stated) fails: two January sales on different days give two
    entries, where grouping by month gives one entry of their sum. *)
Lemma C1_counterexample :
  let df := Sample.typed Sample.diario in
  serie_of df Sample.cafe
  = [(mkTs 2024 1 5, 3); (mkTs 2024 1 20, 4); (mkTs 2024 2 15, 6); (mkTs 2024 3 15, 2)]
  /\ serie_mensal df Sample.cafe
     = [(mkTs 2024 1 1, 7); (mkTs 2024 2 1, 6); (mkTs 2024 3 1, 2)]
  /\ ~ grouped_by Ts.month_floor (filter_produto Sample.cafe (rows df))
         (serie_of df Sample.cafe).
Proof.
  split; [reflexivity|]. split; [reflexivity|].
  intros (_ & HK & _).
  destruct (proj1 (HK (mkTs 2024 1 5))) as [r [_ Hr]].
  - left. reflexivity.
  - destruct (data_ref r) as [d|]; simpl in Hr; [|discriminate].
    unfold Ts.month_floor in Hr. discriminate.
Qed.

(** ** Loading *)

Section Loading.

Variable parse_datetime : list (option str) -> str -> option Timestamp.

Lemma mapM_to_datetime_cell col cells :
  match mapM (to_datetime_cell parse_datetime col) cells with
  | (lg, inr dts) =>
      lg = [] /\ dts = map (cell_value parse_datetime col) cells /\ Forall (cell_accepted parse_datetime col) cells
  | (lg, inl e) =>
      lg = [] /\ exists s1, In (Some s1) cells /\ parse_datetime col s1 = None
                            /\ e = DateParseError s1
  end.
Proof.
  induction cells as [|c cells IH]; simpl.
  - repeat split. constructor.
  - destruct c as [s1|]; simpl.
    + destruct (parse_datetime col s1) as [t|] eqn:Ep; simpl.
      * destruct (mapM _ cells) as [lg [e|dts]]; simpl.
        -- destruct IH as [-> [s2 [Hin [Hp ->]]]]. split; [reflexivity|].
           exists s2. auto.
        -- destruct IH as [-> [-> HF]]. repeat split.
           constructor; [simpl; congruence|exact HF].
      * split; [reflexivity|]. exists s1. auto.
    + destruct (mapM _ cells) as [lg [e|dts]]; simpl.
      * destruct IH as [-> [s2 [Hin [Hp ->]]]]. split; [reflexivity|].
        exists s2. auto.
      * destruct IH as [-> [-> HF]]. repeat split. constructor; [exact I|exact HF].
Qed.

Lemma to_datetime_spec col :
  match to_datetime parse_datetime col with
  | (lg, inr dts) =>
      lg = [] /\ dts = map (cell_value parse_datetime col) col /\ Forall (cell_accepted parse_datetime col) col
  | (lg, inl e) =>
      lg = [] /\ exists s1, In (Some s1) col /\ parse_datetime col s1 = None
                            /\ e = DateParseError s1
  end.
Proof. apply mapM_to_datetime_cell. Qed.

Lemma to_datetime_silent col : fst (to_datetime parse_datetime col) = [].
Proof.
  pose proof (to_datetime_spec col) as H.
  destruct (to_datetime parse_datetime col) as [lg [e|dts]]; simpl; tauto.
Qed.

Lemma has_column_In {D} (df : DataFrame D) c :
  has_column df c = true <-> In c (columns df).
Proof.
  unfold has_column. rewrite existsb_exists. split.
  - intros [x [Hx E]]. apply TextFacts.text_eqb_eq in E. now subst.
  - intros H. exists c. split; [exact H|apply TextFacts.text_eqb_refl].
Qed.

Lemma assign_column {A B C} (f : A -> B) (g : A -> B -> C) (l : list A) :
  map (fun rd => g (fst rd) (snd rd)) (combine l (map f l)) = map (fun r => g r (f r)) l.
Proof. induction l as [|a l IH]; simpl; [reflexivity|]. now rewrite IH. Qed.

(** Loading a table: all rows typed, or a failure. *)
Lemma normalize_spec (raw : DataFrame (option str)) :
  let col := map data_ref (rows raw) in
  match normalize parse_datetime raw with
  | (_, inr df) =>
      len df = len raw
      /\ rows df = map (fun r => mkRow (cell_value parse_datetime col (data_ref r))
                                       (produto r) (quantidade r))
                       (rows raw)
      /\ columns df = columns raw
      /\ has_column raw (Text.lit "data_ref") = true
      /\ Forall (cell_accepted parse_datetime col) col
  | (_, inl e) =>
      MalformedInput e
      /\ (has_column raw (Text.lit "data_ref") = false
          \/ exists s1, In (Some s1) col /\ parse_datetime col s1 = None)
  end.
Proof.
  intros col. unfold normalize, getitem.
  destruct (has_column raw (Text.lit "data_ref")) eqn:Hc; simpl.
  - pose proof (to_datetime_spec col) as H. fold col.
    destruct (to_datetime parse_datetime col) as [lg [e|dts]]; simpl.
    + destruct H as [-> [s1 [Hin [Hp ->]]]]. split; [exact I|]. right. eauto.
    + destruct H as [-> [-> HF]].
      pose proof (assign_column (fun r : Row (option str) => cell_value parse_datetime col (data_ref r))
                    (fun r d => mkRow d (produto r) (quantidade r)) (rows raw)) as Hrows.
      rewrite <- map_map in Hrows. fold col in Hrows. simpl in Hrows.
      unfold len. simpl. rewrite Hrows. rewrite length_map. auto.
  - split; [exact I|]. now left.
Qed.

End Loading.

(** ** Rounding *)

Module RoundFacts.

(** The rounded value of [n/d], in integer arithmetic. *)
Lemma round_bounds (n : Z) (d : positive) (z : Z) :
  z = round_astype_int (n # d) ->
  2 * z * Z.pos d - Z.pos d <= 2 * n <= 2 * z * Z.pos d + Z.pos d
  /\ (2 * n = 2 * z * Z.pos d - Z.pos d \/ 2 * n = 2 * z * Z.pos d + Z.pos d
      -> Z.even z = true).
Proof.
  unfold round_astype_int; cbn [Qnum Qden].
  pose proof (Z.div_mod n (Z.pos d) ltac:(lia)) as Hdm.
  pose proof (Z.mod_pos_bound n (Z.pos d) ltac:(lia)) as Hr.
  set (D := Z.pos d) in *. set (f := n / D) in *. set (r := n mod D) in *.
  assert (HD : 0 < D) by (unfold D; lia).
  destruct (Z.compare_spec (2 * r) D) as [He|Hl|Hg].
  - destruct (Z.even f) eqn:Ev; intros ->.
    + split; [nia|]. intros _. exact Ev.
    + split; [nia|]. intros _.
      replace (f + 1) with (Z.succ f) by lia.
      rewrite Z.even_succ, <- Z.negb_even, Ev. reflexivity.
  - intros ->. split; [nia|]. intros [H|H]; exfalso; nia.
  - intros ->. split; [nia|]. intros [H|H]; exfalso; nia.
Qed.

Lemma round_nearest (x : Q) : nearest_even x (round_astype_int x).
Proof.
  destruct x as [n d].
  destruct (round_bounds n d _ eq_refl) as [[H1 H2] H3].
  set (z := round_astype_int (n # d)) in *.
  unfold nearest_even, Qle, Qeq, Qminus, Qplus, Qopp, inject_Z.
  cbn [Qnum Qden]. change (Z.pos (1 * 2)) with 2.
  repeat split.
  - lia.
  - lia.
  - intros [H|H]; apply H3; lia.
Qed.

(** Rounding keeps the order: bounds cross after rounding only if they
    crossed before. *)
Lemma round_mono (x y : Q) :
  (x <= y)%Q -> round_astype_int x <= round_astype_int y.
Proof.
  destruct x as [n1 d1], y as [n2 d2]. unfold Qle; cbn [Qnum Qden]. intros Hle.
  destruct (round_bounds n1 d1 _ eq_refl) as [[L1 U1] T1].
  destruct (round_bounds n2 d2 _ eq_refl) as [[L2 U2] T2].
  set (z1 := round_astype_int (n1 # d1)) in *.
  set (z2 := round_astype_int (n2 # d2)) in *.
  set (D1 := Z.pos d1) in *. set (D2 := Z.pos d2) in *.
  assert (P1 : 0 < D1) by (unfold D1; lia).
  assert (P2 : 0 < D2) by (unfold D2; lia).
  destruct (Z_le_gt_dec z1 z2) as [Hok|Hgt]; [exact Hok|exfalso].
  assert (A : (2 * z2 + 1) * D1 <= 2 * n1) by nia.
  assert (B : 2 * n2 <= (2 * z2 + 1) * D2) by nia.
  assert (C : (2 * z2 + 1) * D1 * D2 <= 2 * n1 * D2) by nia.
  assert (C' : 2 * n2 * D1 <= (2 * z2 + 1) * D2 * D1) by nia.
  assert (E1 : 2 * n1 * D2 = (2 * z2 + 1) * D1 * D2) by nia.
  assert (E2 : 2 * n2 * D1 = (2 * z2 + 1) * D2 * D1) by nia.
  assert (F1 : 2 * n1 = (2 * z2 + 1) * D1) by nia.
  assert (F2 : 2 * n2 = (2 * z2 + 1) * D2) by nia.
  assert (Z1 : z1 = z2 + 1) by nia.
  assert (Ev2 : Z.even z2 = true) by (apply T2; right; nia).
  assert (Ev1 : Z.even z1 = true) by (apply T1; left; nia).
  rewrite Z1 in Ev1.
  replace (z2 + 1) with (Z.succ z2) in Ev1 by lia.
  rewrite Z.even_succ, <- Z.negb_even, Ev2 in Ev1. discriminate.
Qed.


(** [nearest_even] fixes the rounded value. *)
Lemma nearest_even_unique (x : Q) (z z' : Z) :
  nearest_even x z -> nearest_even x z' -> z = z'.
Proof.
  destruct x as [n d]. unfold nearest_even, Qle, Qeq, Qminus, Qplus, Qopp, inject_Z.
  cbn [Qnum Qden]. change (Z.pos (1 * 2)) with 2.
  intros (L & U & T) (L' & U' & T').
  assert (P : 0 < Z.pos d) by lia. set (D := Z.pos d) in *.
  assert (Hd : z' = z \/ z' = z + 1 \/ z = z' + 1) by nia.
  destruct Hd as [ -> | [ -> | -> ] ]; [reflexivity| |]; exfalso.
  - assert (Ev : Z.even z = true) by (apply T; right; nia).
    assert (Ev' : Z.even (z + 1) = true) by (apply T'; left; nia).
    replace (z + 1) with (Z.succ z) in Ev' by lia.
    rewrite Z.even_succ, <- Z.negb_even, Ev in Ev'. discriminate.
  - assert (Ev' : Z.even z' = true) by (apply T'; right; nia).
    assert (Ev : Z.even (z' + 1) = true) by (apply T; left; nia).
    replace (z' + 1) with (Z.succ z') in Ev by lia.
    rewrite Z.even_succ, <- Z.negb_even, Ev' in Ev. discriminate.
Qed.

Lemma arredondar_rounded (raw : Pred Q) : rounded_row raw (arredondar raw).
Proof. repeat split; apply round_nearest. Qed.

End RoundFacts.

(** ** The export *)

Module CsvFacts.

Lemma encode_utf8_app a b :
  Text.encode_utf8 (a ++ b)
  = match Text.encode_utf8 a, Text.encode_utf8 b with
    | Some x, Some y => Some (x ++ y)
    | _, _ => None
    end.
Proof.
  induction a as [|c a IH]; simpl.
  - now destruct (Text.encode_utf8 b).
  - rewrite IH. destruct (Text.encode_point c) as [bs|]; [|reflexivity].
    destruct (Text.encode_utf8 a) as [x|]; [|reflexivity].
    destruct (Text.encode_utf8 b) as [y|]; [|reflexivity].
    now rewrite app_assoc.
Qed.

Lemma encode_ascii s1 :
  Forall (fun c => (c < 128)%N) s1 -> Text.encode_utf8 s1 = Some (ascii_bytes s1).
Proof.
  induction 1 as [|c r Hc _ IH]; simpl; [reflexivity|].
  unfold Text.encode_point. apply N.ltb_lt in Hc. rewrite Hc, IH. reflexivity.
Qed.

Lemma date_char_ascii c : date_char c = true -> (c < 128)%N.
Proof.
  unfold date_char. rewrite orb_true_iff, andb_true_iff, N.eqb_eq, !N.leb_le. lia.
Qed.

Lemma date_char_not_special c : date_char c = true -> csv_special c = false.
Proof.
  unfold date_char, csv_special.
  rewrite orb_true_iff, andb_true_iff, N.eqb_eq, !N.leb_le. intros H.
  repeat (apply orb_false_intro); apply N.eqb_neq; lia.
Qed.

Lemma uint_chars_date u : Forall (fun c => date_char c = true) (Text.uint_chars u).
Proof. induction u; simpl; constructor; auto. Qed.

Lemma of_Z_date z : Forall (fun c => date_char c = true) (Text.of_Z z).
Proof.
  unfold Text.of_Z. destruct (z <? 0).
  - constructor; [reflexivity|apply uint_chars_date].
  - apply uint_chars_date.
Qed.

Lemma zfill_date w s1 :
  Forall (fun c => date_char c = true) s1 ->
  Forall (fun c => date_char c = true) (Text.zfill w s1).
Proof.
  intros H. unfold Text.zfill. apply Forall_app. split; [|exact H].
  induction (w - List.length s1)%nat; simpl; constructor; auto.
Qed.

Lemma lit_hyphen_date : Forall (fun c => date_char c = true) (Text.lit "-").
Proof. repeat constructor. Qed.

Lemma strftime_Ymd_date t : Forall (fun c => date_char c = true) (Ts.strftime_Ymd t).
Proof.
  unfold Ts.strftime_Ymd.
  repeat first [ apply of_Z_date | apply zfill_date, of_Z_date
               | apply lit_hyphen_date | apply Forall_app; split ].
Qed.

Lemma quote_minimal_date s1 :
  Forall (fun c => date_char c = true) s1 -> quote_minimal s1 = s1.
Proof.
  intros H. unfold quote_minimal.
  replace (existsb csv_special s1) with false; [reflexivity|].
  symmetry. induction H as [|c r Hc _ IH]; simpl; [reflexivity|].
  now rewrite (date_char_not_special _ Hc), IH.
Qed.

Lemma ascii_weaken s1 :
  Forall (fun c => date_char c = true) s1 -> Forall (fun c => (c < 128)%N) s1.
Proof. apply Forall_impl. exact date_char_ascii. Qed.

Lemma linesep_ascii p : Forall (fun c => (c < 128)%N) (linesep p).
Proof. destruct p; repeat constructor. Qed.

Lemma lit_comma_ascii : Forall (fun c => (c < 128)%N) (Text.lit ",").
Proof. repeat constructor. Qed.

(** The line of a forecast row is written without quotes and encodes to
    the bytes of its characters. *)
Lemma encode_row p (r : Pred Z) :
  Text.encode_utf8
    (csv_line p (csv_row (mkPrev (Ts.strftime_Ymd (ds r)) (yhat r) (yhat_lower r)
                                 (yhat_upper r))))
  = Some (row_bytes p r).
Proof.
  unfold csv_line, csv_row, row_bytes. cbn [map Text.join Data Previsao
    Limite_inferior Limite_superior].
  rewrite (quote_minimal_date _ (strftime_Ymd_date (ds r))).
  rewrite !(quote_minimal_date _ (of_Z_date _)).
  rewrite <- !app_assoc. apply encode_ascii.
  repeat first [ apply ascii_weaken, strftime_Ymd_date
               | apply ascii_weaken, of_Z_date
               | apply linesep_ascii
               | apply lit_comma_ascii
               | apply Forall_app; split ].
Qed.

Lemma encode_header p :
  Text.encode_utf8 (csv_line p tabela_prev_columns) = Some (header_bytes p).
Proof. destruct p; vm_compute; reflexivity. Qed.

Lemma encode_flat_map {A} (f : A -> str) (g : A -> list byte) (l : list A) :
  (forall a, Text.encode_utf8 (f a) = Some (g a)) ->
  Text.encode_utf8 (flat_map f l) = Some (flat_map g l).
Proof.
  intros H. induction l as [|a l IH]; simpl; [reflexivity|].
  now rewrite encode_utf8_app, H, IH.
Qed.

(** Encoding the export never fails, and gives the header line followed by
    one line per row. *)
Lemma encode_to_csv p (futuro : list (Pred Z)) :
  Text.encode_utf8 (to_csv p (tabela_prev futuro)) = Some (csv_bytes p futuro).
Proof.
  unfold to_csv, csv_bytes, tabela_prev.
  rewrite encode_utf8_app, encode_header, flat_map_concat_map, map_map,
    <- flat_map_concat_map.
  now rewrite (encode_flat_map _ (row_bytes p)) by (intros; apply encode_row).
Qed.

Lemma row_text p (r : Pred Z) :
  csv_line p (csv_row (mkPrev (Ts.strftime_Ymd (ds r)) (yhat r) (yhat_lower r)
                              (yhat_upper r)))
  = Ts.strftime_Ymd (ds r) ++ Text.lit "," ++ Text.of_Z (yhat r) ++ Text.lit ","
    ++ Text.of_Z (yhat_lower r) ++ Text.lit "," ++ Text.of_Z (yhat_upper r)
    ++ linesep p.
Proof.
  unfold csv_line, csv_row. cbn [map Text.join Data Previsao
    Limite_inferior Limite_superior].
  rewrite (quote_minimal_date _ (strftime_Ymd_date (ds r))).
  rewrite !(quote_minimal_date _ (of_Z_date _)).
  now rewrite <- !app_assoc.
Qed.

Lemma line_count_app a b : line_count (a ++ b) = (line_count a + line_count b)%nat.
Proof. apply count_occ_app. Qed.

Lemma line_count_date s1 :
  Forall (fun c => date_char c = true) s1 -> line_count s1 = 0%nat.
Proof.
  unfold line_count. induction 1 as [|c r Hc _ IH]; simpl; [reflexivity|].
  destruct (N.eq_dec c 10) as [->|_]; [discriminate Hc|exact IH].
Qed.

Lemma line_count_linesep p : line_count (linesep p) = 1%nat.
Proof. now destruct p. Qed.

(** The export has one line for the header and one per row. *)
Lemma line_count_to_csv p (futuro : list (Pred Z)) :
  line_count (to_csv p (tabela_prev futuro)) = S (List.length futuro).
Proof.
  unfold to_csv. rewrite line_count_app.
  replace (line_count (csv_line p tabela_prev_columns)) with 1%nat
    by (now destruct p).
  simpl. f_equal. induction futuro as [|r rest IH]; [reflexivity|].
  cbn [tabela_prev map flat_map]. rewrite line_count_app. fold (tabela_prev rest).
  rewrite IH, row_text, !line_count_app, line_count_linesep.
  rewrite (line_count_date _ (strftime_Ymd_date _)), !(line_count_date _ (of_Z_date _)).
  reflexivity.
Qed.

End CsvFacts.

(** ** The run, case by case *)

Section Run.

Variable parse_datetime : list (option str) -> str -> option Timestamp.
Variable E : Engine.
Variable os : platform.

Lemma normalize_silent raw : fst (normalize parse_datetime raw) = [].
Proof.
  unfold normalize, getitem.
  destruct (has_column raw (Text.lit "data_ref")); [|reflexivity].
  pose proof (to_datetime_silent parse_datetime (map data_ref (rows raw))) as H.
  cbn [bind ret raise].
  destruct (to_datetime parse_datetime (map data_ref (rows raw))) as [lg [e|dts]];
    simpl in *; subst; reflexivity.
Qed.

(** The forecast body, as a function of what the engine answers. *)
Lemma gerar_previsao_cases p H serie :
  gerar_previsao parse_datetime E os p H serie
  = match fit E serie with
    | None => ([ProphetFit serie], inl EngineError)
    | Some m =>
        let futuro := make_future_dataframe E m H in
        match predict E m futuro with
        | None =>
            ([ProphetFit serie; ProphetMakeFuture H; ProphetPredict futuro],
             inl EngineError)
        | Some previsao =>
            let fut := previsao_futuro H previsao in
            let tab := tabela_prev fut in
            match to_datetime parse_datetime (map (fun r => Some (Data r)) tab) with
            | (_, inl e) =>
                ([ProphetFit serie; ProphetMakeFuture H; ProphetPredict futuro;
                  StDataframePrev tab], inl e)
            | (_, inr datas) =>
                ([ProphetFit serie; ProphetMakeFuture H; ProphetPredict futuro;
                  StDataframePrev tab;
                  StTableResumida
                    (combine (map (option_map Ts.strftime_mY) datas) (map Previsao tab));
                  StDownloadButton (csv_bytes os fut) (file_name p);
                  StPyplot previsao serie], inr tt)
            end
        end
    end.
Proof.
  unfold gerar_previsao. cbn [bind emit or_raise ret raise app].
  destruct (fit E serie) as [m|]; [|reflexivity]. cbn [bind emit or_raise ret raise app].
  destruct (predict E m (make_future_dataframe E m H)) as [previsao|]; [|reflexivity].
  cbn [bind emit or_raise ret raise app].
  pose proof (to_datetime_silent parse_datetime
                (map (fun r => Some (Data r)) (tabela_prev (previsao_futuro H previsao))))
    as Hs.
  destruct (to_datetime parse_datetime _) as [lg [e|datas]]; simpl in Hs; subst lg.
  - reflexivity.
  - cbn [bind emit or_raise ret raise app].
    rewrite CsvFacts.encode_to_csv. reflexivity.
Qed.

(** The whole script, as a function of what loading gives. *)
Lemma app_cases raw p H clicked :
  app parse_datetime E os (Some raw) p H clicked
  = match normalize parse_datetime raw with
    | (_, inl e) => ([], inl e)
    | (_, inr df) =>
        if has_column df (Text.lit "produto") then
          if has_column df (Text.lit "quantidade") then
            let serie := serie_of df p in
            (StDataframePreview (df_preview df)
               :: StDataframeSerie (serie_display serie)
               :: fst (secao_previsao parse_datetime E os p H serie clicked),
             snd (secao_previsao parse_datetime E os p H serie clicked))
          else ([StDataframePreview (df_preview df)],
                inl (KeyError (Text.lit "quantidade")))
        else ([StDataframePreview (df_preview df)],
              inl (KeyError (Text.lit "produto")))
    end.
Proof.
  unfold app. pose proof (normalize_silent raw) as Hs.
  destruct (normalize parse_datetime raw) as [lg [e|df]]; simpl in Hs; subst lg.
  - reflexivity.
  - unfold getitem. cbn [bind emit ret raise app].
    destruct (has_column df (Text.lit "produto")); [|reflexivity].
    cbn [bind emit ret raise app].
    destruct (has_column df (Text.lit "quantidade")); [|reflexivity].
    cbn [bind emit ret raise app].
    destruct (secao_previsao parse_datetime E os p H (serie_of df p) clicked).
    reflexivity.
Qed.

(** An engine call or a forecast output in the log of the script comes
    from the forecast body, run on the series of the loaded table. *)
Lemma app_forecast_event raw p H clicked ev :
  In ev (fst (app parse_datetime E os (Some raw) p H clicked)) ->
  is_engine_call ev || is_forecast_output ev = true ->
  exists df,
    normalize parse_datetime raw = ([], inr df)
    /\ (3 <= List.length (serie_of df p))%nat
    /\ clicked = true
    /\ In ev (fst (gerar_previsao parse_datetime E os p H (serie_of df p))).
Proof.
  rewrite app_cases. pose proof (normalize_silent raw) as Hs.
  destruct (normalize parse_datetime raw) as [lg [e|df]]; simpl in Hs; subst lg.
  - intros [].
  - destruct (has_column df (Text.lit "produto"));
      [|intros [<-|[]]; discriminate].
    destruct (has_column df (Text.lit "quantidade"));
      [|intros [<-|[]]; discriminate].
    cbn [fst]. intros [<-|[<-|Hin]]; try discriminate. intros Hev.
    unfold secao_previsao in Hin.
    destruct (List.length (serie_of df p) <? 3)%nat eqn:Hlen.
    + destruct Hin as [<-|[]]. discriminate.
    + apply Nat.ltb_ge in Hlen. destruct clicked.
      * exists df. auto.
      * destruct Hin as [<-|[]]. discriminate.
Qed.

(** A run in which the engine answers and the table's dates parse back
    ends normally with the complete log. *)
Lemma gerar_previsao_ok p H serie m previsao lg0 datas :
  fit E serie = Some m ->
  predict E m (make_future_dataframe E m H) = Some previsao ->
  to_datetime parse_datetime
    (map (fun r => Some (Data r)) (tabela_prev (previsao_futuro H previsao)))
  = (lg0, inr datas) ->
  gerar_previsao parse_datetime E os p H serie
  = ([ProphetFit serie; ProphetMakeFuture H;
      ProphetPredict (make_future_dataframe E m H);
      StDataframePrev (tabela_prev (previsao_futuro H previsao));
      StTableResumida
        (combine (map (option_map Ts.strftime_mY) datas)
                 (map Previsao (tabela_prev (previsao_futuro H previsao))));
      StDownloadButton (csv_bytes os (previsao_futuro H previsao)) (file_name p);
      StPyplot previsao serie], inr tt).
Proof.
  intros Hfit Hpred Hdt. rewrite gerar_previsao_cases, Hfit. cbv zeta.
  rewrite Hpred, Hdt. reflexivity.
Qed.

(** The export and the chart are only reached in such a run. *)
Lemma gerar_previsao_reached p H serie ev :
  In ev (fst (gerar_previsao parse_datetime E os p H serie)) ->
  (exists d f, ev = StDownloadButton d f) \/ (exists pv s1, ev = StPyplot pv s1) ->
  exists m previsao datas,
    fit E serie = Some m
    /\ predict E m (make_future_dataframe E m H) = Some previsao
    /\ to_datetime parse_datetime
         (map (fun r => Some (Data r)) (tabela_prev (previsao_futuro H previsao)))
       = ([], inr datas).
Proof.
  rewrite gerar_previsao_cases. intros Hin Hev.
  destruct (fit E serie) as [m|] eqn:Hfit.
  - cbv zeta in Hin.
    destruct (predict E m (make_future_dataframe E m H)) as [previsao|] eqn:Hpred.
    + pose proof (to_datetime_silent parse_datetime
        (map (fun r => Some (Data r)) (tabela_prev (previsao_futuro H previsao)))) as Hs.
      destruct (to_datetime parse_datetime _) as [lg [e|datas]] eqn:Hdt; simpl in Hs; subst lg.
      * exfalso. simpl in Hin.
        destruct Hev as [(d & f & ->)|(pv & s1 & ->)];
          repeat (destruct Hin as [Hin|Hin]; try discriminate Hin); contradiction.
      * exists m, previsao, datas. auto.
    + exfalso. simpl in Hin.
      destruct Hev as [(d & f & ->)|(pv & s1 & ->)];
        repeat (destruct Hin as [Hin|Hin]; try discriminate Hin); contradiction.
  - exfalso. simpl in Hin.
    destruct Hev as [(d & f & ->)|(pv & s1 & ->)];
      repeat (destruct Hin as [Hin|Hin]; try discriminate Hin); contradiction.
Qed.

End Run.

(** ** The future index *)

Module FutureFacts.

Lemma future_index_length last_d periods :
  List.length (future_index last_d periods) = Z.to_nat periods.
Proof. unfold future_index. now rewrite length_map, length_seq. Qed.

Lemma future_index_nth last_d periods k :
  (1 <= k <= Z.to_nat periods)%nat ->
  nth_error (future_index last_d periods) (k - 1)
  = Some (Ts.of_month_index (Ts.month_index last_d + Z.of_nat k)).
Proof.
  intros Hk. unfold future_index.
  rewrite (nth_error_map _ (k - 1) (seq 1 (Z.to_nat periods))).
  rewrite nth_error_seq.
  replace (k - 1 <? Z.to_nat periods)%nat with true
    by (symmetry; apply Nat.ltb_lt; lia).
  simpl. do 3 f_equal. lia.
Qed.

Lemma month_starts_sorted base a n :
  StronglySorted Ts.lt
    (map (fun k => Ts.of_month_index (base + Z.of_nat k)) (seq a n)).
Proof.
  revert a. induction n as [|n IH]; intros a; simpl; constructor.
  - apply IH.
  - apply Forall_forall. intros t Ht. apply in_map_iff in Ht.
    destruct Ht as [k [<- Hk]]. apply in_seq in Hk.
    apply TsFacts.of_month_index_lt. lia.
Qed.

Lemma future_index_sorted last_d periods :
  StronglySorted Ts.lt (future_index last_d periods).
Proof. apply month_starts_sorted. Qed.

Lemma tail_positive {A} (n : Z) (l : list A) :
  0 < n -> tail n l = skipn (List.length l - Z.to_nat n) l.
Proof.
  intros Hn. unfold tail.
  destruct (Z.eqb_spec n 0); [lia|].
  destruct (Z.ltb_spec 0 n); [reflexivity|lia].
Qed.

Lemma skipn_app_exact {A} (l1 l2 : list A) :
  skipn (List.length l1) (l1 ++ l2) = l2.
Proof. induction l1; simpl; auto. Qed.

Lemma tail_length_min {A} (n : Z) (l : list A) :
  0 <= n -> List.length (tail n l) = Nat.min (Z.to_nat n) (List.length l).
Proof.
  intros Hn. unfold tail. destruct (Z.eqb_spec n 0) as [->|Hne]; [reflexivity|].
  destruct (Z.ltb_spec 0 n); [|lia]. rewrite length_skipn. lia.
Qed.

(** With an engine that keeps its contract the last [H] predicted rows are
    the rows of the [H] future periods, in order. *)
Lemma contract_future_rows (E : Engine) (H : Z) serie m previsao :
  EngineContract E -> 0 < H ->
  fit E serie = Some m ->
  predict E m (make_future_dataframe E m H) = Some previsao ->
  map ds (tail H previsao) = future_index (last_date serie) H.
Proof.
  intros HC HH Hfit Hpred. rewrite tail_positive by lia.
  rewrite <- skipn_map, (predict_rows E HC _ _ _ Hpred),
    (future_appended E HC _ _ _ Hfit).
  replace (List.length previsao - Z.to_nat H)%nat
    with (List.length (map fst serie)).
  - apply skipn_app_exact.
  - pose proof (f_equal (@List.length _) (predict_rows E HC _ _ _ Hpred)) as Hl.
    rewrite (future_appended E HC _ _ _ Hfit) in Hl.
    rewrite length_map, length_app, future_index_length in Hl. lia.
Qed.

End FutureFacts.

(** ** The claims about a run *)

Section Claims.

Variable parse_datetime : list (option str) -> str -> option Timestamp.
Variable E : Engine.
Variable os : platform.

(** C2 (as amended): every entry of the series handed to the engine's fit
    step carries, unchanged, the [data_ref] date of a record of the selected
    product (so it is the first day of a month only when that record's
    date is); the series is the one built by the aggregation. *)
Theorem C2_fit_receives_record_dates raw p H clicked s1 d y :
  In (ProphetFit s1) (fst (app parse_datetime E os (Some raw) p H clicked)) ->
  In (d, y) s1 ->
  exists df r,
    normalize parse_datetime raw = ([], inr df)
    /\ s1 = serie_of df p
    /\ In r (rows df) /\ produto r = p /\ data_ref r = Some d.
Proof.
  intros Hev Hin.
  destruct (app_forecast_event _ _ _ _ _ _ _ _ Hev eq_refl) as (df & Hn & _ & _ & Hg).
  rewrite gerar_previsao_cases in Hg.
  assert (Hs : s1 = serie_of df p).
  { destruct (fit E (serie_of df p)) as [m|].
    - cbv zeta in Hg.
      destruct (predict E m _) as [pv|].
      + destruct (to_datetime parse_datetime _) as [lg [e|datas]];
          simpl in Hg; repeat (destruct Hg as [Hg|Hg]; try discriminate Hg;
                               try (injection Hg as Hg; now subst)); contradiction.
      + simpl in Hg; repeat (destruct Hg as [Hg|Hg]; try discriminate Hg;
                               try (injection Hg as Hg; now subst)); contradiction.
    - simpl in Hg. destruct Hg as [Hg|[]]. injection Hg as Hg. now subst. }
  subst s1. exists df.
  destruct (groupby_sum_grouped (filter_produto p (rows df))) as (_ & HK & _).
  fold (serie_of df p) in HK.
  destruct (proj1 (HK d)) as [r [Hr Hd]].
  { change d with (fst (d, y)). now apply in_map. }
  exists r. unfold filter_produto in Hr. apply filter_In in Hr.
  destruct Hr as [Hr Hp]. apply TextFacts.text_eqb_eq in Hp.
  destruct (data_ref r) as [d'|] eqn:Ed; simpl in Hd; [|discriminate].
  injection Hd as ->. auto.
Qed.


(** C4: with fewer than three observed periods (none included) the
    forecast section only shows the advisory: it ends normally, no engine
    call is made and no forecast output is produced, whether or not the
    button is clicked; the same holds for the whole script. *)
Theorem C4_short_history_refused raw df p H clicked :
  normalize parse_datetime raw = ([], inr df) ->
  (List.length (serie_of df p) < 3)%nat ->
  secao_previsao parse_datetime E os p H (serie_of df p) clicked
  = ([StWarningShortHistory], inr tt)
  /\ Forall (fun ev => is_engine_call ev = false /\ is_forecast_output ev = false)
       (fst (app parse_datetime E os (Some raw) p H clicked))
  /\ (forall e, snd (app parse_datetime E os (Some raw) p H clicked) = inl e ->
                exists c, e = KeyError c).
Proof.
  intros Hn Hlen.
  assert (Hs : secao_previsao parse_datetime E os p H (serie_of df p) clicked
               = ([StWarningShortHistory], inr tt)).
  { unfold secao_previsao. apply Nat.ltb_lt in Hlen. now rewrite Hlen. }
  split; [exact Hs|]. rewrite app_cases, Hn. cbv zeta. rewrite Hs.
  destruct (has_column df (Text.lit "produto"));
    destruct (has_column df (Text.lit "quantidade")); simpl; split;
    try (repeat constructor; fail);
    try (intros e He; discriminate He);
    intros e He; injection He as <-; eauto.
Qed.

(** C3: when the engine keeps its contract, for a horizon between 1 and 12
    and a series of at least three observations, the future slice is the
    last [H] rows of the predicted range (taken by position); it has
    exactly [H] entries, strictly increasing in period, the k-th being the
    first day of the k-th month after the month of the last observation;
    and it is the slice the forecast table shows. *)
Theorem C3_future_slice p H serie m previsao :
  EngineContract E ->
  1 <= H <= 12 ->
  (3 <= List.length serie)%nat ->
  fit E serie = Some m ->
  predict E m (make_future_dataframe E m H) = Some previsao ->
  let fut := previsao_futuro H previsao in
  fut = map arredondar (skipn (List.length previsao - Z.to_nat H) previsao)
  /\ Z.of_nat (List.length fut) = H
  /\ StronglySorted Ts.lt (map ds fut)
  /\ (forall k, (1 <= k <= Z.to_nat H)%nat ->
        nth_error (map ds fut) (k - 1)
        = Some (Ts.of_month_index (Ts.month_index (last_date serie) + Z.of_nat k)))
  /\ In (StDataframePrev (tabela_prev fut))
        (fst (secao_previsao parse_datetime E os p H serie true)).
Proof.
  intros HC HH Hlen Hfit Hpred fut.
  assert (Hds : map ds fut = future_index (last_date serie) H).
  { unfold fut, previsao_futuro. rewrite map_map. cbn [arredondar ds].
    change (fun x : Pred Q => ds x) with (@ds Q).
    rewrite FutureFacts.tail_positive by lia.
    rewrite <- skipn_map, (predict_rows E HC _ _ _ Hpred),
      (future_appended E HC _ _ _ Hfit).
    replace (List.length previsao - Z.to_nat H)%nat
      with (List.length (map fst serie)).
    - apply FutureFacts.skipn_app_exact.
    - pose proof (f_equal (@List.length _) (predict_rows E HC _ _ _ Hpred)) as Hl.
      rewrite (future_appended E HC _ _ _ Hfit) in Hl.
      rewrite length_map, length_app, FutureFacts.future_index_length in Hl.
      lia. }
  split; [|split; [|split; [|split]]].
  - unfold fut, previsao_futuro. now rewrite FutureFacts.tail_positive by lia.
  - rewrite <- (length_map ds), Hds, FutureFacts.future_index_length. lia.
  - rewrite Hds. apply FutureFacts.future_index_sorted.
  - intros k Hk. rewrite Hds. now apply FutureFacts.future_index_nth.
  - unfold secao_previsao. replace (List.length serie <? 3)%nat with false
      by (symmetry; apply Nat.ltb_ge; lia).
    rewrite gerar_previsao_cases, Hfit. cbv zeta. rewrite Hpred.
    fold fut. destruct (to_datetime parse_datetime _) as [lg [e|datas]]; simpl; auto.
Qed.

Lemma Forall2_map_same {A B} (P : A -> B -> Prop) (f : A -> B) (l : list A) :
  (forall a, P a (f a)) -> Forall2 P l (map f l).
Proof. intros H. induction l; simpl; constructor; auto. Qed.


(** C5 (as amended): the three values of every row of the future slice (the
    last [H] rows, not the whole predicted range) are each rounded on
    their own to the nearest integer, a tie going to the even integer;
    the rows of the full predicted range that go to the chart are the
    engine's, not rounded. *)
Theorem C5_future_rounded_half_even p H serie pv s1 :
  In (StPyplot pv s1) (fst (gerar_previsao parse_datetime E os p H serie)) ->
  (exists m, fit E serie = Some m
             /\ predict E m (make_future_dataframe E m H) = Some pv)
  /\ In (StDataframePrev (tabela_prev (previsao_futuro H pv)))
        (fst (gerar_previsao parse_datetime E os p H serie))
  /\ Forall2 rounded_row (tail H pv) (previsao_futuro H pv).
Proof.
  intros Hin.
  destruct (gerar_previsao_reached parse_datetime E os p H serie _ Hin)
    as (m & previsao & datas & Hfit & Hpred & Hdt); [right; eauto|].
  rewrite (gerar_previsao_ok parse_datetime E os p H serie m previsao [] datas
             Hfit Hpred Hdt) in *.
  simpl in Hin.
  repeat (destruct Hin as [Hin|Hin]; try discriminate Hin); [|contradiction].
  injection Hin as -> ->.
  split; [eauto|]. split; [simpl; auto|].
  apply Forall2_map_same. exact RoundFacts.arredondar_rounded.
Qed.

(** C6 (as amended): the script makes no check on the bounds.  Whenever the
    engine answers, the run ends normally and shows and exports, for every
    future period, the rounded lower and upper bound as they are, whatever
    their order; after rounding the lower bound exceeds the upper one only
    if it did before. *)
Theorem C6_bounds_shown_unchecked p H serie m previsao lg0 datas :
  fit E serie = Some m ->
  predict E m (make_future_dataframe E m H) = Some previsao ->
  to_datetime parse_datetime
    (map (fun r => Some (Data r)) (tabela_prev (previsao_futuro H previsao)))
  = (lg0, inr datas) ->
  let run := gerar_previsao parse_datetime E os p H serie in
  let tab := tabela_prev (previsao_futuro H previsao) in
  snd run = inr tt
  /\ In (StDataframePrev tab) (fst run)
  /\ In (StDownloadButton (csv_bytes os (previsao_futuro H previsao)) (file_name p))
        (fst run)
  /\ Forall2 (fun raw row =>
                Limite_inferior row = round_astype_int (yhat_lower raw)
                /\ Limite_superior row = round_astype_int (yhat_upper raw)
                /\ ((yhat_lower raw <= yhat_upper raw)%Q ->
                    Limite_inferior row <= Limite_superior row))
       (tail H previsao) tab.
Proof.
  intros Hfit Hpred Hdt run tab. unfold run.
  rewrite (gerar_previsao_ok parse_datetime E os p H serie m previsao lg0 datas
             Hfit Hpred Hdt).
  split; [reflexivity|]. split; [simpl; auto|]. split; [simpl; auto 10|].
  unfold tab, tabela_prev, previsao_futuro. rewrite map_map.
  apply Forall2_map_same. intros raw. cbn.
  repeat split. apply RoundFacts.round_mono.
Qed.

(** C8: the export of a forecast run is the UTF-8 encoding of a comma
    separated table: the header line
    [Data,Previsão (unidades),Limite inferior,Limite superior], then
    exactly one line per row of the future slice (date, point estimate,
    lower and upper bound), the slice being the rounded last [H] rows of
    what the engine's predict step returned; with an engine that keeps
    its contract these are the [H] future periods, one line each.  The
    file name is [previsao_<produto>.csv]. *)
Theorem C8_export_one_row_per_period p H serie data fname :
  In (StDownloadButton data fname)
     (fst (gerar_previsao parse_datetime E os p H serie)) ->
  exists m previsao,
    fit E serie = Some m
    /\ predict E m (make_future_dataframe E m H) = Some previsao
    /\ let fut := previsao_futuro H previsao in
       fut = map arredondar (tail H previsao)
       /\ In (StDataframePrev (tabela_prev fut))
             (fst (gerar_previsao parse_datetime E os p H serie))
       /\ Text.encode_utf8 (to_csv os (tabela_prev fut)) = Some data
       /\ data = header_bytes os ++ flat_map (row_bytes os) fut
       /\ line_count (to_csv os (tabela_prev fut)) = S (List.length fut)
       /\ (0 <= H ->
           List.length fut = Nat.min (Z.to_nat H) (List.length previsao))
       /\ (EngineContract E -> 1 <= H ->
           Z.of_nat (List.length fut) = H
           /\ map ds fut = future_index (last_date serie) H
           /\ line_count (to_csv os (tabela_prev fut)) = S (Z.to_nat H))
       /\ fname = Text.lit "previsao_" ++ p ++ Text.lit ".csv".
Proof.
  intros Hin.
  destruct (gerar_previsao_reached parse_datetime E os p H serie _ Hin)
    as (m & previsao & datas & Hfit & Hpred & Hdt); [left; eauto|].
  rewrite (gerar_previsao_ok parse_datetime E os p H serie m previsao [] datas
             Hfit Hpred Hdt) in *.
  simpl in Hin.
  repeat (destruct Hin as [Hin|Hin]; try discriminate Hin); [|contradiction].
  injection Hin as <- <-. exists m, previsao.
  split; [exact Hfit|]. split; [exact Hpred|]. cbv zeta.
  split; [reflexivity|]. split; [simpl; auto|].
  split; [apply CsvFacts.encode_to_csv|]. split; [reflexivity|].
  split; [apply CsvFacts.line_count_to_csv|].
  assert (Hlen : List.length (previsao_futuro H previsao)
                 = List.length (tail H previsao))
    by (unfold previsao_futuro; apply length_map).
  split; [|split; [|reflexivity]].
  - intros HH. rewrite Hlen. now apply FutureFacts.tail_length_min.
  - intros HC HH.
    assert (Hds : map ds (previsao_futuro H previsao)
                  = future_index (last_date serie) H).
    { unfold previsao_futuro. rewrite map_map. cbn [arredondar ds].
      change (fun x : Pred Q => ds x) with (@ds Q).
      apply (FutureFacts.contract_future_rows E H serie m previsao HC); auto; lia. }
    assert (Hn : List.length (previsao_futuro H previsao) = Z.to_nat H).
    { rewrite <- (length_map ds), Hds. apply FutureFacts.future_index_length. }
    split; [rewrite Hn; lia|]. split; [exact Hds|].
    rewrite CsvFacts.line_count_to_csv, Hn. reflexivity.
Qed.

(** C9: the engine outputs 12.4, 9.6 and 15.5 for one period give the
    forecast entry 12, 10 and 16. *)
Theorem C9_rounding_example (d : Timestamp) :
  arredondar (mkPred d (124 # 10) (96 # 10) (155 # 10)) = mkPred d 12 10 16.
Proof. reflexivity. Qed.


End Claims.

(** ** The claims on concrete runs *)

Lemma const_engine_contract v lo hi : EngineContract (Sample.const_engine v lo hi).
Proof.
  split.
  - intros serie m periods Hfit. simpl in *. injection Hfit as <-. reflexivity.
  - intros m futuro previsao Hp. simpl in Hp. injection Hp as <-.
    rewrite map_map. simpl. apply map_id.
Qed.

(** C2 (as stated) fails: for day-level records the fit step receives the
    dates 5 and 20 January, not the first day of the month. *)
Lemma C2_counterexample :
  In (ProphetFit Sample.serie_diario)
     (fst (app Sample.parse_iso Sample.engine Posix (Some Sample.diario)
               Sample.cafe 2 true))
  /\ In (mkTs 2024 1 5, 3) Sample.serie_diario
  /\ Ts.is_month_start (mkTs 2024 1 5) = false
  /\ Ts.month_floor (mkTs 2024 1 5) = mkTs 2024 1 1.
Proof. vm_compute. auto 10. Qed.

Lemma C2_witness :
  In (ProphetFit Sample.serie_cafe)
     (fst (app Sample.parse_iso Sample.engine Posix (Some Sample.mensal)
               Sample.cafe 2 true))
  /\ In (mkTs 2024 2 1, 13) Sample.serie_cafe
  /\ exists df r,
       normalize Sample.parse_iso Sample.mensal = ([], inr df)
       /\ Sample.serie_cafe = serie_of df Sample.cafe
       /\ In r (rows df) /\ produto r = Sample.cafe
       /\ data_ref r = Some (mkTs 2024 2 1).
Proof.
  assert (H1 : In (ProphetFit Sample.serie_cafe)
     (fst (app Sample.parse_iso Sample.engine Posix (Some Sample.mensal)
               Sample.cafe 2 true))) by (vm_compute; auto 10).
  assert (H2 : In (mkTs 2024 2 1, 13) Sample.serie_cafe) by (simpl; auto).
  split; [exact H1|]. split; [exact H2|].
  exact (C2_fit_receives_record_dates _ _ _ _ _ _ _ _ _ _ H1 H2).
Defined.

Lemma C3_witness :
  let E := Sample.engine in
  let previsao := Sample.previsao_cafe (5 # 2) (1 # 2) (7 # 2) 2 in
  let fut := previsao_futuro 2 previsao in
  fit E Sample.serie_cafe = Some Sample.serie_cafe
  /\ predict E Sample.serie_cafe (make_future_dataframe E Sample.serie_cafe 2)
     = Some previsao
  /\ fut = map arredondar (skipn (List.length previsao - Z.to_nat 2) previsao)
  /\ Z.of_nat (List.length fut) = 2
  /\ StronglySorted Ts.lt (map ds fut)
  /\ (forall k, (1 <= k <= Z.to_nat 2)%nat ->
        nth_error (map ds fut) (k - 1)
        = Some (Ts.of_month_index
                  (Ts.month_index (last_date Sample.serie_cafe) + Z.of_nat k)))
  /\ In (StDataframePrev (tabela_prev fut))
        (fst (secao_previsao Sample.parse_iso E Posix Sample.cafe 2
                Sample.serie_cafe true)).
Proof.
  intros E previsao fut.
  split; [reflexivity|]. split; [reflexivity|].
  apply (C3_future_slice Sample.parse_iso E Posix Sample.cafe 2 Sample.serie_cafe
           Sample.serie_cafe previsao).
  - apply const_engine_contract.
  - lia.
  - simpl; lia.
  - reflexivity.
  - reflexivity.
Defined.

Lemma C4_witness :
  let df := Sample.typed Sample.mensal in
  normalize Sample.parse_iso Sample.mensal = ([], inr df)
  /\ (List.length (serie_of df Sample.bolo) < 3)%nat
  /\ secao_previsao Sample.parse_iso Sample.engine Posix Sample.bolo 2
       (serie_of df Sample.bolo) true
     = ([StWarningShortHistory], inr tt)
  /\ Forall (fun ev => is_engine_call ev = false /\ is_forecast_output ev = false)
       (fst (app Sample.parse_iso Sample.engine Posix (Some Sample.mensal)
                 Sample.bolo 2 true))
  /\ (forall e,
        snd (app Sample.parse_iso Sample.engine Posix (Some Sample.mensal)
                 Sample.bolo 2 true) = inl e ->
        exists c, e = KeyError c).
Proof.
  intros df.
  assert (H1 : normalize Sample.parse_iso Sample.mensal = ([], inr df))
    by reflexivity.
  assert (H2 : (List.length (serie_of df Sample.bolo) < 3)%nat)
    by (vm_compute; lia).
  split; [exact H1|]. split; [exact H2|].
  exact (C4_short_history_refused Sample.parse_iso Sample.engine Posix
           Sample.mensal df Sample.bolo 2 true H1 H2).
Defined.

(** C5 (as stated) fails twice on one run: the point estimate 2.5 is shown
    as 2 and the lower bound 0.5 as 0, where rounding half away from zero
    gives 3 and 1; and the in-sample rows kept for the chart still hold
    2.5, unrounded. *)
Lemma C5_counterexample :
  let run := gerar_previsao Sample.parse_iso Sample.engine Posix Sample.cafe 1
               Sample.serie_cafe in
  In (StDataframePrev [mkPrev (Text.lit "2024-04-01") 2 0 4]) (fst run)
  /\ round_half_away (5 # 2) = 3
  /\ round_half_away (1 # 2) = 1
  /\ In (StPyplot (Sample.previsao_cafe (5 # 2) (1 # 2) (7 # 2) 1) Sample.serie_cafe)
        (fst run)
  /\ nth_error (map yhat (Sample.previsao_cafe (5 # 2) (1 # 2) (7 # 2) 1)) 0
     = Some (5 # 2).
Proof.
  intros run. repeat split; try reflexivity.
  - vm_compute. auto 10.
  - vm_compute. auto 20.
Qed.

Lemma C5_witness :
  let pv := Sample.previsao_cafe (5 # 2) (1 # 2) (7 # 2) 2 in
  let run := gerar_previsao Sample.parse_iso Sample.engine Posix Sample.cafe 2
               Sample.serie_cafe in
  In (StPyplot pv Sample.serie_cafe) (fst run)
  /\ (exists m, fit Sample.engine Sample.serie_cafe = Some m
                /\ predict Sample.engine m (make_future_dataframe Sample.engine m 2)
                   = Some pv)
  /\ In (StDataframePrev (tabela_prev (previsao_futuro 2 pv))) (fst run)
  /\ Forall2 rounded_row (tail 2 pv) (previsao_futuro 2 pv).
Proof.
  intros pv run.
  assert (H1 : In (StPyplot pv Sample.serie_cafe) (fst run))
    by (vm_compute; auto 10).
  split; [exact H1|].
  exact (C5_future_rounded_half_even Sample.parse_iso Sample.engine Posix
           Sample.cafe 2 Sample.serie_cafe pv Sample.serie_cafe H1).
Defined.

(** C6 (as stated) fails: with a lower bound 5 above the upper bound 3 the
    run ends normally; the table and the export carry the crossed bounds
    and nothing else is shown. *)
Lemma C6_counterexample :
  gerar_previsao Sample.parse_iso Sample.engine_cruzado Posix Sample.cafe 1
    Sample.serie_cafe
  = ([ProphetFit Sample.serie_cafe; ProphetMakeFuture 1;
      ProphetPredict
        [mkTs 2024 1 1; mkTs 2024 2 1; mkTs 2024 3 1; mkTs 2024 4 1];
      StDataframePrev [mkPrev (Text.lit "2024-04-01") 4 5 3];
      StTableResumida [(Some (Text.lit "04/2024"), 4)];
      StDownloadButton
        (list_byte_of_string "Data,Previsão (unidades),Limite inferior,Limite superior"
         ++ [x0a] ++ list_byte_of_string "2024-04-01,4,5,3" ++ [x0a])
        (Text.lit "previsao_cafe.csv");
      StPyplot (Sample.previsao_cafe 4 5 3 1) Sample.serie_cafe], inr tt)
  /\ 5 > 3.
Proof. split; [vm_compute; reflexivity|lia]. Qed.

Lemma C6_witness :
  let E := Sample.engine_cruzado in
  let previsao := Sample.previsao_cafe 4 5 3 2 in
  let datas := [Some (mkTs 2024 4 1); Some (mkTs 2024 5 1)] in
  let run := gerar_previsao Sample.parse_iso E Posix Sample.cafe 2 Sample.serie_cafe in
  let tab := tabela_prev (previsao_futuro 2 previsao) in
  fit E Sample.serie_cafe = Some Sample.serie_cafe
  /\ predict E Sample.serie_cafe (make_future_dataframe E Sample.serie_cafe 2)
     = Some previsao
  /\ to_datetime Sample.parse_iso (map (fun r => Some (Data r)) tab) = ([], inr datas)
  /\ snd run = inr tt
  /\ In (StDataframePrev tab) (fst run)
  /\ In (StDownloadButton (csv_bytes Posix (previsao_futuro 2 previsao))
                          (file_name Sample.cafe)) (fst run)
  /\ Forall2 (fun raw row =>
                Limite_inferior row = round_astype_int (yhat_lower raw)
                /\ Limite_superior row = round_astype_int (yhat_upper raw)
                /\ ((yhat_lower raw <= yhat_upper raw)%Q ->
                    Limite_inferior row <= Limite_superior row))
       (tail 2 previsao) tab.
Proof.
  intros E previsao datas run tab.
  split; [reflexivity|]. split; [reflexivity|]. split; [reflexivity|].
  exact (C6_bounds_shown_unchecked Sample.parse_iso E Posix Sample.cafe 2
           Sample.serie_cafe Sample.serie_cafe previsao [] datas
           eq_refl eq_refl eq_refl).
Defined.

Lemma C8_witness :
  let E := Sample.engine in
  let previsao0 := Sample.previsao_cafe (5 # 2) (1 # 2) (7 # 2) 2 in
  let data := csv_bytes Posix (previsao_futuro 2 previsao0) in
  let fname := file_name Sample.cafe in
  let run := gerar_previsao Sample.parse_iso E Posix Sample.cafe 2
               Sample.serie_cafe in
  In (StDownloadButton data fname) (fst run)
  /\ exists m previsao,
       fit E Sample.serie_cafe = Some m
       /\ predict E m (make_future_dataframe E m 2) = Some previsao
       /\ let fut := previsao_futuro 2 previsao in
          fut = map arredondar (tail 2 previsao)
          /\ In (StDataframePrev (tabela_prev fut)) (fst run)
          /\ Text.encode_utf8 (to_csv Posix (tabela_prev fut)) = Some data
          /\ data = header_bytes Posix ++ flat_map (row_bytes Posix) fut
          /\ line_count (to_csv Posix (tabela_prev fut)) = S (List.length fut)
          /\ (0 <= 2 ->
              List.length fut = Nat.min (Z.to_nat 2) (List.length previsao))
          /\ (EngineContract E -> 1 <= 2 ->
              Z.of_nat (List.length fut) = 2
              /\ map ds fut = future_index (last_date Sample.serie_cafe) 2
              /\ line_count (to_csv Posix (tabela_prev fut)) = S (Z.to_nat 2))
          /\ fname = Text.lit "previsao_" ++ Sample.cafe ++ Text.lit ".csv".
Proof.
  intros E previsao0 data fname run.
  assert (H1 : In (StDownloadButton data fname) (fst run))
    by (vm_compute; auto 10).
  split; [exact H1|].
  exact (C8_export_one_row_per_period Sample.parse_iso E Posix Sample.cafe 2
           Sample.serie_cafe data fname H1).
Defined.

(** The export of the sample run, byte for byte: the header and one line
    for each of the two future months. *)
Example export_cafe_bytes :
  csv_bytes Posix (previsao_futuro 2 (Sample.previsao_cafe (5 # 2) (1 # 2) (7 # 2) 2))
  = list_byte_of_string "Data,Previsão (unidades),Limite inferior,Limite superior"
    ++ [x0a] ++ list_byte_of_string "2024-04-01,2,0,4" ++ [x0a]
    ++ list_byte_of_string "2024-05-01,2,0,4" ++ [x0a].
Proof. vm_compute. reflexivity. Qed.




(** Loading on the sample tables: a missing date column and a date that
    does not parse both stop the load. *)
Example normalize_sem_data :
  normalize Sample.parse_iso Sample.sem_data
  = ([], inl (KeyError (Text.lit "data_ref"))).
Proof. reflexivity. Qed.

Example normalize_data_ruim :
  normalize Sample.parse_iso Sample.data_ruim
  = ([], inl (DateParseError (Text.lit "ontem"))).
Proof. reflexivity. Qed.

Example normalize_mensal_rows :
  len (Sample.typed Sample.mensal) = len Sample.mensal.
Proof. reflexivity. Qed.

(** * Further properties of the script *)

(** ** The aggregation (lines 100-107) *)

Module SerieFacts.

Lemma sorted_same_elements (l l' : list Timestamp) :
  StronglySorted Ts.lt l -> StronglySorted Ts.lt l' ->
  (forall x, In x l <-> In x l') -> l = l'.
Proof.
  intros Hl. revert l'. induction Hl as [|a l Hs IH Ha]; intros l' Hl' Heq.
  - destruct l' as [|b l']; [reflexivity|].
    destruct (proj2 (Heq b) (or_introl eq_refl)).
  - destruct Hl' as [|b l' Hs' Hb].
    + destruct (proj1 (Heq a) (or_introl eq_refl)).
    + rewrite Forall_forall in Ha, Hb.
      assert (Hab : a = b).
      { destruct (proj1 (Heq a) (or_introl eq_refl)) as [E|Hin]; [now symmetry|].
        destruct (proj2 (Heq b) (or_introl eq_refl)) as [E|Hin']; [exact E|].
        exfalso. apply (TsFacts.lt_irrefl a).
        eapply TsFacts.lt_trans; [apply Ha; exact Hin'|apply Hb; exact Hin]. }
      subst b. f_equal. apply IH; [exact Hs'|]. intros x. split; intros Hx.
      * destruct (proj1 (Heq x) (or_intror Hx)) as [E|Hin]; [|exact Hin].
        subst x. exfalso. apply (TsFacts.lt_irrefl a). now apply Ha.
      * destruct (proj2 (Heq x) (or_intror Hx)) as [E|Hin]; [|exact Hin].
        subst x. exfalso. apply (TsFacts.lt_irrefl a). now apply Hb.
Qed.

Lemma grouped_by_values key rs (s1 : Serie) :
  (forall k y, In (k, y) s1 -> y = key_total key k rs) ->
  s1 = map (fun k => (k, key_total key k rs)) (map fst s1).
Proof.
  induction s1 as [|[k y] rest IH]; intros H; simpl; [reflexivity|].
  rewrite <- IH by (intros; apply H; now right).
  now rewrite <- (H k y (or_introl eq_refl)).
Qed.

(** A list of rows has one grouping only. *)
Lemma grouped_by_unique key rs (s1 s2 : Serie) :
  grouped_by key rs s1 -> grouped_by key rs s2 -> s1 = s2.
Proof.
  intros (S1 & K1 & V1) (S2 & K2 & V2).
  rewrite (grouped_by_values key rs s1 V1), (grouped_by_values key rs s2 V2).
  f_equal. apply sorted_same_elements; [exact S1|exact S2|].
  intros x. now rewrite K1, K2.
Qed.

Lemma key_total_perm key k rs rs' :
  Permutation rs rs' -> key_total key k rs = key_total key k rs'.
Proof.
  unfold key_total. induction 1 as [|r l l' _ IH|r r' l|l l' l'' _ IH1 _ IH2]; simpl.
  - reflexivity.
  - destruct (match data_ref r with Some d => Ts.eqb (key d) k | None => false end);
      simpl; now rewrite IH.
  - destruct (match data_ref r with Some d => Ts.eqb (key d) k | None => false end);
      destruct (match data_ref r' with Some d => Ts.eqb (key d) k | None => false end);
      simpl; lia.
  - now rewrite IH1.
Qed.

Lemma grouped_by_perm key rs rs' (s1 : Serie) :
  Permutation rs rs' -> grouped_by key rs s1 -> grouped_by key rs' s1.
Proof.
  intros HP (HS & HK & HV). split; [exact HS|]. split.
  - intros k. rewrite HK. split; intros [r [Hr Hk]]; exists r; split; auto.
    + eapply Permutation_in; eassumption.
    + eapply Permutation_in; [apply Permutation_sym|]; eassumption.
  - intros k y Hy. rewrite (HV k y Hy). now apply key_total_perm.
Qed.

Lemma filter_perm {A} (f : A -> bool) (l l' : list A) :
  Permutation l l' -> Permutation (filter f l) (filter f l').
Proof.
  induction 1 as [|a l l' _ IH|a b l|l l' l'' _ IH1 _ IH2]; simpl.
  - constructor.
  - destruct (f a); [now constructor|exact IH].
  - destruct (f a), (f b); try apply Permutation_refl. constructor.
  - eapply Permutation_trans; eassumption.
Qed.

Lemma add_group_total k q acc :
  serie_total (add_group k q acc) = serie_total acc + q.
Proof.
  unfold serie_total. induction acc as [|[k' s1] rest IH]; simpl; [lia|].
  destruct (Ts.compare k k'); simpl; lia.
Qed.

Lemma fold_group_total rs : forall acc,
  serie_total (fold_left group_step rs acc)
  = serie_total acc + quantidade_total (filter dated rs).
Proof.
  unfold quantidade_total.
  induction rs as [|r rs IH]; intros acc; simpl; [lia|].
  rewrite IH. unfold group_step, dated.
  destruct (data_ref r); simpl; [rewrite add_group_total|]; lia.
Qed.

Lemma fold_group_dated rs : forall acc,
  fold_left group_step rs acc = fold_left group_step (filter dated rs) acc.
Proof.
  induction rs as [|r rs IH]; intros acc; simpl; [reflexivity|].
  unfold dated at 1. unfold group_step at 2.
  destruct (data_ref r) eqn:Ed; simpl.
  - unfold group_step at 3. rewrite Ed. apply IH.
  - apply IH.
Qed.

Lemma add_group_length k q acc :
  (List.length (add_group k q acc) <= S (List.length acc))%nat.
Proof.
  induction acc as [|[k' s1] rest IH]; simpl; [lia|].
  destruct (Ts.compare k k'); simpl; lia.
Qed.

Lemma fold_group_length rs : forall acc,
  (List.length (fold_left group_step rs acc)
   <= List.length acc + List.length (filter dated rs))%nat.
Proof.
  induction rs as [|r rs IH]; intros acc; simpl; [lia|].
  specialize (IH (group_step acc r)). unfold group_step, dated in *.
  destruct (data_ref r); simpl.
  - pose proof (add_group_length t (quantidade r) acc). lia.
  - exact IH.
Qed.

Lemma filter_comm {A} (f g : A -> bool) (l : list A) :
  filter f (filter g l) = filter g (filter f l).
Proof.
  induction l as [|a l IH]; simpl; [reflexivity|].
  destruct (f a) eqn:Ef, (g a) eqn:Eg; simpl; rewrite ?Ef, ?Eg, IH; reflexivity.
Qed.

End SerieFacts.

(** X1: the series of a product does not depend on the order of the rows
    of the uploaded table. *)
Theorem serie_of_row_order (df df' : DataFrame (option Timestamp)) (p : str) :
  Permutation (rows df) (rows df') -> serie_of df p = serie_of df' p.
Proof.
  intros HP. apply (SerieFacts.grouped_by_unique (fun d => d)
                      (filter_produto p (rows df'))).
  - apply (SerieFacts.grouped_by_perm _ (filter_produto p (rows df))).
    + now apply SerieFacts.filter_perm.
    + apply groupby_sum_grouped.
  - apply groupby_sum_grouped.
Qed.

Lemma serie_of_row_order_witness :
  let df := Sample.typed Sample.mensal in
  let df' := mkDF (columns df) (List.rev (rows df)) in
  Permutation (rows df) (rows df')
  /\ serie_of df Sample.cafe = serie_of df' Sample.cafe.
Proof.
  intros df df'.
  assert (H1 : Permutation (rows df) (rows df')) by apply Permutation_rev.
  split; [exact H1|]. exact (serie_of_row_order df df' Sample.cafe H1).
Defined.

(** X2: the values of the series add up to the quantities of the
    product's dated rows: no sale is lost or counted twice. *)
Theorem serie_of_conserves_total (df : DataFrame (option Timestamp)) (p : str) :
  serie_total (serie_of df p)
  = quantidade_total (filter dated (filter_produto p (rows df))).
Proof.
  unfold serie_of, groupby_sum. now rewrite SerieFacts.fold_group_total.
Qed.

(** X3: a row whose date is missing ([NaT]) is left out of the series
    without notice: the series is that of the table without such rows. *)
Theorem serie_of_drops_undated (df : DataFrame (option Timestamp)) (p : str) :
  serie_of df p = serie_of (mkDF (columns df) (filter dated (rows df))) p.
Proof.
  unfold serie_of, groupby_sum, filter_produto. cbn [rows].
  rewrite SerieFacts.fold_group_dated.
  now rewrite SerieFacts.filter_comm.
Qed.

(** X4: the series has at most one entry per dated row of the product, so a
    product with fewer than three dated rows (an unknown product has none)
    only ever gets the short-history warning, clicked or not. *)
Theorem few_rows_never_forecast parse_datetime E os
    (df : DataFrame (option Timestamp)) (p : str) (H : Z) (clicked : bool) :
  (List.length (filter dated (filter_produto p (rows df))) < 3)%nat ->
  (List.length (serie_of df p)
   <= List.length (filter dated (filter_produto p (rows df))))%nat
  /\ secao_previsao parse_datetime E os p H (serie_of df p) clicked
     = ([StWarningShortHistory], inr tt).
Proof.
  intros Hlen.
  assert (Hle : (List.length (serie_of df p)
                 <= List.length (filter dated (filter_produto p (rows df))))%nat).
  { unfold serie_of, groupby_sum.
    pose proof (SerieFacts.fold_group_length (filter_produto p (rows df)) []) as Hl.
    simpl in Hl. exact Hl. }
  split; [exact Hle|]. unfold secao_previsao.
  replace (List.length (serie_of df p) <? 3)%nat with true; [reflexivity|].
  symmetry. apply Nat.ltb_lt. lia.
Qed.

Lemma few_rows_never_forecast_witness :
  let df := Sample.typed Sample.mensal in
  (List.length (filter dated (filter_produto Sample.bolo (rows df))) < 3)%nat
  /\ (List.length (serie_of df Sample.bolo)
      <= List.length (filter dated (filter_produto Sample.bolo (rows df))))%nat
  /\ secao_previsao Sample.parse_iso Sample.engine Posix Sample.bolo 12
       (serie_of df Sample.bolo) true
     = ([StWarningShortHistory], inr tt).
Proof.
  intros df.
  assert (H1 : (List.length (filter dated (filter_produto Sample.bolo (rows df))) < 3)%nat)
    by (vm_compute; lia).
  split; [exact H1|].
  exact (few_rows_never_forecast Sample.parse_iso Sample.engine Posix df
           Sample.bolo 12 true H1).
Defined.

(** X5: on consolidated data, where every date of the table is the first
    day of a month, the series has exactly one entry per calendar month of
    the product, months strictly increasing, each value the sum of the
    product's quantities in that month; it is the series grouping by
    month gives. *)
Theorem serie_of_monthly_when_consolidated (df : DataFrame (option Timestamp))
    (p : str) :
  (forall r d, In r (rows df) -> data_ref r = Some d -> Ts.is_month_start d = true) ->
  serie_of df p = serie_mensal df p
  /\ grouped_by Ts.month_floor (filter_produto p (rows df)) (serie_of df p).
Proof.
  intros Hc. split; [now apply serie_of_consolidated|].
  rewrite (serie_of_consolidated df p Hc). apply serie_mensal_grouped.
Qed.

Lemma serie_of_monthly_when_consolidated_witness :
  let df := Sample.typed Sample.mensal in
  (forall r d, In r (rows df) -> data_ref r = Some d -> Ts.is_month_start d = true)
  /\ serie_of df Sample.cafe = serie_mensal df Sample.cafe
  /\ grouped_by Ts.month_floor (filter_produto Sample.cafe (rows df))
       (serie_of df Sample.cafe).
Proof.
  intros df.
  assert (H1 : forall r d, In r (rows df) -> data_ref r = Some d ->
                           Ts.is_month_start d = true).
  { intros r d Hr Hd. vm_compute in Hr.
    repeat (destruct Hr as [Hr|Hr]; [subst r; injection Hd as <-; reflexivity|]).
    contradiction. }
  split; [exact H1|].
  exact (serie_of_monthly_when_consolidated df Sample.cafe H1).
Defined.

(** ** The forecast section (lines 123-229) *)

Section RunFacts.

Variable parse_datetime : list (option str) -> str -> option Timestamp.
Variable E : Engine.
Variable os : platform.

(** X6: without a click on the button the script never calls the engine and
    shows no table, export or chart, whatever was uploaded. *)
Theorem no_click_no_forecast arquivo p H :
  Forall (fun ev => is_engine_call ev = false /\ is_forecast_output ev = false)
         (fst (app parse_datetime E os arquivo p H false)).
Proof.
  destruct arquivo as [raw|]; [|repeat constructor].
  apply Forall_forall. intros ev Hin.
  destruct (is_engine_call ev || is_forecast_output ev) eqn:Hev.
  - destruct (app_forecast_event _ _ _ _ _ _ _ _ Hin Hev) as (_ & _ & _ & Hc & _).
    discriminate Hc.
  - now apply orb_false_elim in Hev.
Qed.

(** X7: the forecast body ends with the engine's error exactly when fit or
    predict raises, and then nothing of the forecast has been shown: no
    table, no export, no chart. *)
Theorem engine_failure_shows_nothing p H serie :
  (snd (gerar_previsao parse_datetime E os p H serie) = inl EngineError
   <-> engine_fails E serie H)
  /\ (engine_fails E serie H ->
      Forall (fun ev => is_forecast_output ev = false)
             (fst (gerar_previsao parse_datetime E os p H serie))).
Proof.
  rewrite gerar_previsao_cases. unfold engine_fails.
  destruct (fit E serie) as [m|] eqn:Hfit.
  - cbv zeta.
    destruct (predict E m (make_future_dataframe E m H)) as [previsao|] eqn:Hp.
    + pose proof (to_datetime_spec parse_datetime
        (map (fun r => Some (Data r)) (tabela_prev (previsao_futuro H previsao)))) as Hs.
      assert (Hno : ~ (Some m = None
                       \/ exists m0, Some m = Some m0
                            /\ predict E m0 (make_future_dataframe E m0 H) = None)).
      { intros [Hx|(m0 & Hm & Hx)]; [discriminate|].
        injection Hm as <-. rewrite Hp in Hx. discriminate. }
      destruct (to_datetime parse_datetime _) as [lg [e|datas]].
      * destruct Hs as (_ & s1 & _ & _ & ->). simpl.
        split; [split; [discriminate|intros Hx; now destruct Hno]|].
        intros Hx. now destruct Hno.
      * simpl. split; [split; [discriminate|intros Hx; now destruct Hno]|].
        intros Hx. now destruct Hno.
    + simpl. split; [split; [|reflexivity]|].
      * intros _. right. exists m. auto.
      * intros _. repeat constructor.
  - simpl. split; [split; auto|]. intros _. repeat constructor.
Qed.

(** X8: in every run of the forecast body the engine is called in the
    order fit, make_future_dataframe, predict, each at most once: fit on
    the series, then, if fit returns, the future frame for [H] periods
    and predict on exactly that frame. *)
Theorem engine_calls_in_order p H serie :
  filter is_engine_call (fst (gerar_previsao parse_datetime E os p H serie))
  = match fit E serie with
    | None => [ProphetFit serie]
    | Some m =>
        [ProphetFit serie; ProphetMakeFuture H;
         ProphetPredict (make_future_dataframe E m H)]
    end.
Proof.
  rewrite gerar_previsao_cases.
  destruct (fit E serie) as [m|]; [|reflexivity]. cbv zeta.
  destruct (predict E m (make_future_dataframe E m H)) as [previsao|];
    [|reflexivity].
  destruct (to_datetime parse_datetime _) as [lg [e|datas]]; reflexivity.
Qed.

(** X9: a complete run.  When the table loads with its three columns, the
    product has at least three periods, the button is clicked and the
    engine answers, the script ends normally having shown, in this order:
    preview, series, the three engine calls, forecast table, summary
    table, download button and chart. *)
Theorem complete_run raw df p H m previsao lg0 datas :
  normalize parse_datetime raw = ([], inr df) ->
  has_column raw (Text.lit "produto") = true ->
  has_column raw (Text.lit "quantidade") = true ->
  (3 <= List.length (serie_of df p))%nat ->
  fit E (serie_of df p) = Some m ->
  predict E m (make_future_dataframe E m H) = Some previsao ->
  to_datetime parse_datetime
    (map (fun r => Some (Data r)) (tabela_prev (previsao_futuro H previsao)))
  = (lg0, inr datas) ->
  app parse_datetime E os (Some raw) p H true
  = ([StDataframePreview (df_preview df);
      StDataframeSerie (serie_display (serie_of df p));
      ProphetFit (serie_of df p); ProphetMakeFuture H;
      ProphetPredict (make_future_dataframe E m H);
      StDataframePrev (tabela_prev (previsao_futuro H previsao));
      StTableResumida
        (combine (map (option_map Ts.strftime_mY) datas)
                 (map Previsao (tabela_prev (previsao_futuro H previsao))));
      StDownloadButton (csv_bytes os (previsao_futuro H previsao)) (file_name p);
      StPyplot previsao (serie_of df p)], inr tt).
Proof.
  intros Hn Hp Hq Hlen Hfit Hpred Hdt.
  pose proof (normalize_spec parse_datetime raw) as Hs. rewrite Hn in Hs.
  destruct Hs as (_ & _ & Hcols & _).
  rewrite app_cases, Hn. unfold has_column in *. rewrite Hcols, Hp, Hq.
  cbv zeta. unfold secao_previsao.
  replace (List.length (serie_of df p) <? 3)%nat with false
    by (symmetry; apply Nat.ltb_ge; lia).
  now rewrite (gerar_previsao_ok parse_datetime E os p H _ m previsao lg0 datas
                 Hfit Hpred Hdt).
Qed.

End RunFacts.

Lemma engine_failure_shows_nothing_witness :
  engine_fails Sample.engine_sem_predict Sample.serie_cafe 3
  /\ Forall (fun ev => is_forecast_output ev = false)
       (fst (gerar_previsao Sample.parse_iso Sample.engine_sem_predict Posix
               Sample.cafe 3 Sample.serie_cafe)).
Proof.
  assert (H1 : engine_fails Sample.engine_sem_predict Sample.serie_cafe 3).
  { right. exists Sample.serie_cafe. split; reflexivity. }
  split; [exact H1|].
  exact (proj2 (engine_failure_shows_nothing Sample.parse_iso
                  Sample.engine_sem_predict Posix Sample.cafe 3 Sample.serie_cafe) H1).
Defined.

Lemma complete_run_witness :
  let df := Sample.typed Sample.mensal in
  let previsao := Sample.previsao_cafe (5 # 2) (1 # 2) (7 # 2) 2 in
  let datas := [Some (mkTs 2024 4 1); Some (mkTs 2024 5 1)] in
  normalize Sample.parse_iso Sample.mensal = ([], inr df)
  /\ (3 <= List.length (serie_of df Sample.cafe))%nat
  /\ app Sample.parse_iso Sample.engine Posix (Some Sample.mensal) Sample.cafe 2 true
     = ([StDataframePreview (df_preview df);
         StDataframeSerie (serie_display (serie_of df Sample.cafe));
         ProphetFit (serie_of df Sample.cafe); ProphetMakeFuture 2;
         ProphetPredict
           (make_future_dataframe Sample.engine (serie_of df Sample.cafe) 2);
         StDataframePrev (tabela_prev (previsao_futuro 2 previsao));
         StTableResumida
           (combine (map (option_map Ts.strftime_mY) datas)
                    (map Previsao (tabela_prev (previsao_futuro 2 previsao))));
         StDownloadButton (csv_bytes Posix (previsao_futuro 2 previsao))
                          (file_name Sample.cafe);
         StPyplot previsao (serie_of df Sample.cafe)], inr tt).
Proof.
  intros df previsao datas.
  assert (H1 : normalize Sample.parse_iso Sample.mensal = ([], inr df))
    by reflexivity.
  assert (H2 : (3 <= List.length (serie_of df Sample.cafe))%nat)
    by (vm_compute; lia).
  split; [exact H1|]. split; [exact H2|].
  exact (complete_run Sample.parse_iso Sample.engine Posix Sample.mensal df
           Sample.cafe 2 (serie_of df Sample.cafe) previsao [] datas
           H1 eq_refl eq_refl H2 eq_refl eq_refl eq_refl).
Defined.

Example gerar_previsao_sem_fit :
  gerar_previsao Sample.parse_iso Sample.engine_sem_fit Posix Sample.cafe 3
    Sample.serie_cafe
  = ([ProphetFit Sample.serie_cafe], inl EngineError).
Proof. reflexivity. Qed.

(** ** The future slice and its rounding (lines 143-156) *)

Module SliceFacts.

Lemma tail_suffix {A} (n : Z) (l : list A) : exists before, l = before ++ tail n l.
Proof.
  unfold tail. destruct (n =? 0).
  - exists l. now rewrite app_nil_r.
  - destruct (0 <? n).
    + exists (firstn (List.length l - Z.to_nat n) l). now rewrite firstn_skipn.
    + exists (firstn (Z.to_nat (- n)) l). now rewrite firstn_skipn.
Qed.

Lemma tail_In {A} (n : Z) (l : list A) (x : A) : In x (tail n l) -> In x l.
Proof.
  intros Hx. destruct (tail_suffix n l) as [before ->].
  apply in_or_app. now right.
Qed.

Lemma tail_length {A} (n : Z) (l : list A) :
  0 <= n -> List.length (tail n l) = Nat.min (Z.to_nat n) (List.length l).
Proof.
  intros Hn. unfold tail. destruct (Z.eqb_spec n 0) as [->|Hne]; [reflexivity|].
  destruct (Z.ltb_spec 0 n); [|lia]. rewrite length_skipn. lia.
Qed.

End SliceFacts.

(** X10: for a horizon [H >= 0] the forecast table has min(H, n) rows, where
    n is the number of rows the engine returned; they are the last rows of
    what the engine returned, whatever their dates. *)
Theorem forecast_table_rows (H : Z) (previsao : list (Pred Q)) :
  0 <= H ->
  List.length (tabela_prev (previsao_futuro H previsao))
  = Nat.min (Z.to_nat H) (List.length previsao)
  /\ exists before, previsao = before ++ tail H previsao
                    /\ previsao_futuro H previsao = map arredondar (tail H previsao).
Proof.
  intros HH. split.
  - unfold tabela_prev, previsao_futuro. rewrite !length_map.
    now apply SliceFacts.tail_length.
  - destruct (SliceFacts.tail_suffix H previsao) as [before Hb].
    exists before. split; [exact Hb|reflexivity].
Qed.

Lemma forecast_table_rows_witness :
  let previsao := Sample.previsao_cafe (5 # 2) (1 # 2) (7 # 2) 2 in
  0 <= 12
  /\ List.length (tabela_prev (previsao_futuro 12 previsao))
     = Nat.min (Z.to_nat 12) (List.length previsao)
  /\ exists before, previsao = before ++ tail 12 previsao
                    /\ previsao_futuro 12 previsao = map arredondar (tail 12 previsao).
Proof.
  intros previsao.
  assert (H1 : 0 <= 12) by lia.
  split; [exact H1|]. exact (forecast_table_rows 12 previsao H1).
Defined.

(** X11: rounding keeps the order of the interval: when the engine's rows
    satisfy lower <= point <= upper, so does every row of the forecast
    table. *)
Theorem forecast_table_keeps_interval (H : Z) (previsao : list (Pred Q)) :
  Forall (fun r => (yhat_lower r <= yhat r)%Q /\ (yhat r <= yhat_upper r)%Q) previsao ->
  Forall (fun row => Limite_inferior row <= Previsao row <= Limite_superior row)
         (tabela_prev (previsao_futuro H previsao)).
Proof.
  intros Hall. rewrite Forall_forall in *. intros row Hrow.
  unfold tabela_prev, previsao_futuro in Hrow. rewrite map_map in Hrow.
  apply in_map_iff in Hrow. destruct Hrow as [r [<- Hr]].
  apply SliceFacts.tail_In in Hr. destruct (Hall r Hr) as [Hlo Hhi].
  cbn. split; now apply RoundFacts.round_mono.
Qed.

Lemma forecast_table_keeps_interval_witness :
  let previsao := Sample.previsao_cafe (5 # 2) (1 # 2) (7 # 2) 2 in
  Forall (fun r => (yhat_lower r <= yhat r)%Q /\ (yhat r <= yhat_upper r)%Q) previsao
  /\ Forall (fun row => Limite_inferior row <= Previsao row <= Limite_superior row)
       (tabela_prev (previsao_futuro 2 previsao)).
Proof.
  intros previsao.
  assert (H1 : Forall (fun r => (yhat_lower r <= yhat r)%Q /\ (yhat r <= yhat_upper r)%Q)
                      previsao).
  { unfold previsao, Sample.previsao_cafe. apply Forall_forall. intros r Hr.
    apply in_map_iff in Hr. destruct Hr as [t [<- _]]. cbn.
    split; unfold Qle; simpl; lia. }
  split; [exact H1|]. exact (forecast_table_keeps_interval 2 previsao H1).
Defined.

(** X12: the rounding depends on the value only, not on how the rational is
    written, and leaves an integer value as it is. *)
Theorem round_of_value (x y : Q) (z : Z) :
  (x == y)%Q ->
  round_astype_int x = round_astype_int y
  /\ ((x == inject_Z z)%Q -> round_astype_int x = z).
Proof.
  intros Hxy.
  assert (Hcompat : forall a b, (a == b)%Q ->
                                round_astype_int a = round_astype_int b).
  { intros a b Hab. apply (RoundFacts.nearest_even_unique a);
      [apply RoundFacts.round_nearest|].
    destruct (RoundFacts.round_nearest b) as (L & U & T).
    unfold nearest_even. rewrite Hab. auto. }
  split; [now apply Hcompat|]. intros Hz. rewrite (Hcompat _ _ Hz).
  unfold round_astype_int. cbn [Qnum Qden inject_Z].
  rewrite Z.div_1_r, Z.mod_1_r. reflexivity.
Qed.

Lemma round_of_value_witness :
  ((10 # 4) == (5 # 2))%Q
  /\ round_astype_int (10 # 4) = round_astype_int (5 # 2)
  /\ (((8 # 2) == inject_Z 4)%Q -> round_astype_int (8 # 2) = 4).
Proof.
  assert (H1 : ((10 # 4) == (5 # 2))%Q) by reflexivity.
  split; [exact H1|].
  assert (H2 : ((8 # 2) == (4 # 1))%Q) by reflexivity.
  split; [exact (proj1 (round_of_value (10 # 4) (5 # 2) 0 H1))|].
  exact (proj2 (round_of_value (8 # 2) (4 # 1) 4 H2)).
Defined.

(** X13: the rounding is symmetric about zero: a negative value rounds to
    the opposite of what its absolute value rounds to. *)
Theorem round_opposite (x : Q) : round_astype_int (- x) = - round_astype_int x.
Proof.
  apply (RoundFacts.nearest_even_unique (- x)); [apply RoundFacts.round_nearest|].
  destruct (RoundFacts.round_nearest x) as (L & U & T).
  set (z := round_astype_int x) in *. destruct x as [n d].
  revert L U T. unfold nearest_even, Qle, Qeq, Qminus, Qplus, Qopp, inject_Z.
  cbn [Qnum Qden]. change (Z.pos (1 * 2)) with 2. intros L U T.
  rewrite Z.even_opp. repeat split; try lia.
  intros [Hx|Hx]; apply T; lia.
Qed.

(** ** The product list (line 81) *)

Module CatalogFacts.

Lemma str_compare_eq a b : str_compare a b = Eq <-> a = b.
Proof.
  revert b. induction a as [|x a IH]; intros [|y b]; simpl;
    try (split; [discriminate|discriminate]); [tauto|].
  destruct (N.compare_spec x y) as [->|Hlt|Hgt].
  - rewrite IH. split; [now intros ->|now intros [= ->]].
  - split; [discriminate|]. intros [= -> _]. lia.
  - split; [discriminate|]. intros [= -> _]. lia.
Qed.

Lemma str_compare_antisym a b : str_compare b a = CompOpp (str_compare a b).
Proof.
  revert b. induction a as [|x a IH]; intros [|y b]; simpl; try reflexivity.
  rewrite (N.compare_antisym x y). destruct (N.compare x y); simpl; auto.
Qed.

Lemma str_lt_trans a b c : str_lt a b -> str_lt b c -> str_lt a c.
Proof.
  unfold str_lt. revert b c.
  induction a as [|x a IH]; intros [|y b] [|z c]; simpl; try discriminate; auto.
  destruct (N.compare_spec x y) as [->|Hxy|Hxy]; try discriminate.
  - destruct (N.compare_spec y z) as [->|Hyz|Hyz]; try discriminate; auto.
    apply IH.
  - destruct (N.compare_spec y z) as [->|Hyz|Hyz]; try discriminate; intros _ _.
    + now apply N.compare_lt_iff in Hxy as ->.
    + assert (Hxz : (x < z)%N) by lia. now apply N.compare_lt_iff in Hxz as ->.
Qed.

Lemma str_lt_irrefl a : ~ str_lt a a.
Proof.
  unfold str_lt. intros H.
  assert (E : str_compare a a = Eq) by now apply str_compare_eq.
  congruence.
Qed.

Lemma unique_In l x : In x (unique l) <-> In x l.
Proof.
  induction l as [|y l IH]; simpl; [tauto|].
  rewrite filter_In, IH. split.
  - intros [->|[Hx _]]; auto.
  - intros [->|Hx]; [now left|].
    destruct (Text.eqb x y) eqn:E.
    + apply TextFacts.text_eqb_eq in E. subst. now left.
    + right. split; [exact Hx|reflexivity].
Qed.

Lemma unique_NoDup l : NoDup (unique l).
Proof.
  induction l as [|y l IH]; simpl; constructor.
  - rewrite filter_In. intros [_ H]. now rewrite TextFacts.text_eqb_refl in H.
  - now apply NoDup_filter.
Qed.

Lemma insert_str_In x l y : In y (insert_str x l) <-> y = x \/ In y l.
Proof.
  induction l as [|z l IH]; simpl; [intuition|].
  destruct (str_compare x z); simpl; rewrite ?IH; intuition.
Qed.

Lemma sorted_In l y : In y (sorted l) <-> In y l.
Proof.
  induction l as [|x l IH]; simpl; [tauto|].
  rewrite insert_str_In, IH. intuition.
Qed.

Lemma insert_str_sorted x l :
  ~ In x l -> StronglySorted str_lt l -> StronglySorted str_lt (insert_str x l).
Proof.
  induction l as [|z l IH]; simpl; intros Hx Hs.
  - repeat constructor.
  - inversion Hs as [|? ? Hs' Hz]; subst.
    destruct (str_compare x z) eqn:C.
    + apply str_compare_eq in C. subst. exfalso. apply Hx. now left.
    + constructor; [exact Hs|]. constructor; [exact C|].
      rewrite Forall_forall in *. intros w Hw.
      eapply str_lt_trans; [exact C|now apply Hz].
    + constructor.
      * apply IH; [|exact Hs']. intros Hin. apply Hx. now right.
      * rewrite Forall_forall in *. intros w Hw. apply insert_str_In in Hw.
        destruct Hw as [->|Hw]; [|now apply Hz].
        unfold str_lt. rewrite (str_compare_antisym x z), C. reflexivity.
Qed.

Lemma sorted_sorted l : NoDup l -> StronglySorted str_lt (sorted l).
Proof.
  induction 1 as [|x l Hx _ IH]; simpl; [constructor|].
  apply insert_str_sorted; [|exact IH]. now rewrite sorted_In.
Qed.

End CatalogFacts.

(** X14: the list offered in the select box holds exactly the products
    that occur in the table, each once, in strictly increasing
    (code-point) order. *)
Theorem lista_produtos_catalog {D} (df : DataFrame D) :
  StronglySorted str_lt (lista_produtos df)
  /\ NoDup (lista_produtos df)
  /\ forall p, In p (lista_produtos df) <-> exists r, In r (rows df) /\ produto r = p.
Proof.
  assert (HS : StronglySorted str_lt (lista_produtos df))
    by apply CatalogFacts.sorted_sorted, CatalogFacts.unique_NoDup.
  split; [exact HS|]. split.
  - induction HS as [|a l _ IH Ha]; constructor; [|exact IH].
    rewrite Forall_forall in Ha. intros Hin.
    apply (CatalogFacts.str_lt_irrefl a). now apply Ha.
  - intros p. unfold lista_produtos.
    rewrite CatalogFacts.sorted_In, CatalogFacts.unique_In, in_map_iff.
    split; intros [r [H1 H2]]; exists r; auto.
Qed.

(** X15: a product picked from that list has at least one row, and its
    series is empty exactly when none of its rows has a date. *)
Theorem selected_product_has_rows (df : DataFrame (option Timestamp)) (p : str) :
  In p (lista_produtos df) ->
  filter_produto p (rows df) <> []
  /\ (serie_of df p = []
      <-> forall r, In r (filter_produto p (rows df)) -> data_ref r = None).
Proof.
  intros Hp. unfold lista_produtos in Hp.
  rewrite CatalogFacts.sorted_In, CatalogFacts.unique_In, in_map_iff in Hp.
  destruct Hp as [r [<- Hr]].
  split.
  - intros Hnil.
    assert (Hin : In r (filter_produto (produto r) (rows df))).
    { apply filter_In. split; [exact Hr|apply TextFacts.text_eqb_refl]. }
    rewrite Hnil in Hin. contradiction.
  - destruct (groupby_sum_grouped (filter_produto (produto r) (rows df)))
      as (_ & HK & _).
    fold (serie_of df (produto r)) in HK. split.
    + intros Hnil r' Hr'. destruct (data_ref r') as [d|] eqn:Ed; [|reflexivity].
      exfalso. assert (Hd : In d (map fst (serie_of df (produto r)))).
      { apply HK. exists r'. rewrite Ed. auto. }
      rewrite Hnil in Hd. contradiction.
    + intros Hall. destruct (serie_of df (produto r)) as [|[d y] rest] eqn:Es;
        [reflexivity|].
      destruct (proj1 (HK d) (or_introl eq_refl)) as [r' [Hr' Hd]].
      rewrite (Hall r' Hr') in Hd. discriminate.
Qed.

Lemma selected_product_has_rows_witness :
  let df := Sample.typed Sample.mensal in
  In Sample.bolo (lista_produtos df)
  /\ filter_produto Sample.bolo (rows df) <> []
  /\ (serie_of df Sample.bolo = []
      <-> forall r, In r (filter_produto Sample.bolo (rows df)) -> data_ref r = None).
Proof.
  intros df.
  assert (H1 : In Sample.bolo (lista_produtos df)) by (vm_compute; auto).
  split; [exact H1|]. exact (selected_product_has_rows df Sample.bolo H1).
Defined.

Example lista_produtos_mensal :
  lista_produtos Sample.mensal = [Sample.bolo; Sample.cafe].
Proof. reflexivity. Qed.

(** ** When the engine is asked, and what the tables hold *)

Section OutputFacts.

Variable parse_datetime : list (option str) -> str -> option Timestamp.
Variable E : Engine.
Variable os : platform.

(** X16: the forecast section asks the engine to fit exactly when the
    series has at least three entries and the button was clicked, and
    then it is the series itself that is fitted. *)
Theorem fit_called_iff p H serie clicked s1 :
  In (ProphetFit s1) (fst (secao_previsao parse_datetime E os p H serie clicked))
  <-> (3 <= List.length serie)%nat /\ clicked = true /\ s1 = serie.
Proof.
  unfold secao_previsao.
  destruct (List.length serie <? 3)%nat eqn:Hlen.
  - apply Nat.ltb_lt in Hlen. split.
    + intros [Hx|[]]. discriminate.
    + intros [Hl _]. lia.
  - apply Nat.ltb_ge in Hlen. destruct clicked.
    + rewrite gerar_previsao_cases. split.
      * intros Hin. split; [exact Hlen|]. split; [reflexivity|].
        destruct (fit E serie) as [m|].
        -- cbv zeta in Hin.
           destruct (predict E m (make_future_dataframe E m H)) as [pv|].
           ++ destruct (to_datetime parse_datetime _) as [lg [e|datas]];
                simpl in Hin;
                repeat (destruct Hin as [Hin|Hin]; try discriminate Hin;
                        try (injection Hin as Hin; now subst)); contradiction.
           ++ simpl in Hin;
                repeat (destruct Hin as [Hin|Hin]; try discriminate Hin;
                        try (injection Hin as Hin; now subst)); contradiction.
        -- simpl in Hin. destruct Hin as [Hin|[]]. injection Hin as Hin. now subst.
      * intros (_ & _ & ->).
        destruct (fit E serie) as [m|]; [|simpl; auto]. cbv zeta.
        destruct (predict E m (make_future_dataframe E m H)) as [pv|]; [|simpl; auto].
        destruct (to_datetime parse_datetime _) as [lg [e|datas]]; simpl; auto.
    + split.
      * intros [Hx|[]]. discriminate.
      * intros (_ & Hc & _). discriminate.
Qed.

(** X17: when the dates of the forecast table read back as written, a run
    in which the engine answers ends normally, and its summary table has,
    for each row of the future slice in order, the period as [MM/YYYY]
    and the rounded point estimate. *)
Theorem summary_table p H serie m previsao :
  fit E serie = Some m ->
  predict E m (make_future_dataframe E m H) = Some previsao ->
  (forall r, In r (tail H previsao) ->
     parse_datetime
       (map (fun row => Some (Data row)) (tabela_prev (previsao_futuro H previsao)))
       (Ts.strftime_Ymd (ds r)) = Some (ds r)) ->
  snd (gerar_previsao parse_datetime E os p H serie) = inr tt
  /\ In (StTableResumida
           (map (fun r => (Some (Ts.strftime_mY (ds r)), round_astype_int (yhat r)))
                (tail H previsao)))
        (fst (gerar_previsao parse_datetime E os p H serie)).
Proof.
  intros Hfit Hpred Hparse.
  set (col := map (fun row => Some (Data row))
                  (tabela_prev (previsao_futuro H previsao))) in *.
  pose proof (to_datetime_spec parse_datetime col) as Hs.
  assert (Hcol : col = map (fun r => Some (Ts.strftime_Ymd (ds r))) (tail H previsao)).
  { unfold col, tabela_prev, previsao_futuro. now rewrite !map_map. }
  destruct (to_datetime parse_datetime col) as [lg [e|datas]] eqn:Hdt.
  - exfalso. destruct Hs as (_ & s1 & Hin & Hnone & _).
    rewrite Hcol in Hin. apply in_map_iff in Hin. destruct Hin as [r [Hr Hin]].
    injection Hr as <-. rewrite (Hparse r Hin) in Hnone. discriminate.
  - destruct Hs as (-> & -> & _).
    rewrite (gerar_previsao_ok parse_datetime E os p H serie m previsao []
               (map (cell_value parse_datetime col) col) Hfit Hpred Hdt).
    assert (Hd : map (option_map Ts.strftime_mY) (map (cell_value parse_datetime col) col)
                 = map (fun r => Some (Ts.strftime_mY (ds r))) (tail H previsao)).
    { rewrite map_map.
      transitivity (map (fun x => option_map Ts.strftime_mY
                                    (cell_value parse_datetime col x))
                        (map (fun r => Some (Ts.strftime_Ymd (ds r)))
                             (tail H previsao))).
      - now rewrite <- Hcol.
      - rewrite map_map. apply map_ext_in. intros r Hr. cbn [cell_value].
        now rewrite (Hparse r Hr). }
    assert (Hv : map Previsao (tabela_prev (previsao_futuro H previsao))
                 = map (fun r => round_astype_int (yhat r)) (tail H previsao)).
    { unfold tabela_prev, previsao_futuro. now rewrite !map_map. }
    split; [reflexivity|]. cbn [fst]. rewrite Hd, Hv.
    do 4 right. left. f_equal.
    clear. induction (tail H previsao) as [|r l IH]; simpl;
      [reflexivity|now rewrite IH].
Qed.

End OutputFacts.

Lemma fit_called_iff_witness :
  ((3 <= List.length Sample.serie_cafe)%nat /\ true = true
   /\ Sample.serie_cafe = Sample.serie_cafe)
  /\ In (ProphetFit Sample.serie_cafe)
        (fst (secao_previsao Sample.parse_iso Sample.engine Posix Sample.cafe 2
                Sample.serie_cafe true)).
Proof.
  assert (H1 : (3 <= List.length Sample.serie_cafe)%nat /\ true = true
               /\ Sample.serie_cafe = Sample.serie_cafe)
    by (repeat split; simpl; lia).
  split; [exact H1|].
  exact (proj2 (fit_called_iff Sample.parse_iso Sample.engine Posix Sample.cafe 2
                  Sample.serie_cafe true Sample.serie_cafe) H1).
Defined.

Lemma summary_table_witness :
  let E := Sample.engine in
  let previsao := Sample.previsao_cafe (5 # 2) (1 # 2) (7 # 2) 2 in
  let run := gerar_previsao Sample.parse_iso E Posix Sample.cafe 2 Sample.serie_cafe in
  (forall r, In r (tail 2 previsao) ->
     Sample.parse_iso
       (map (fun row => Some (Data row)) (tabela_prev (previsao_futuro 2 previsao)))
       (Ts.strftime_Ymd (ds r)) = Some (ds r))
  /\ snd run = inr tt
  /\ In (StTableResumida
           (map (fun r => (Some (Ts.strftime_mY (ds r)), round_astype_int (yhat r)))
                (tail 2 previsao)))
        (fst run).
Proof.
  intros E previsao run.
  assert (H1 : forall r, In r (tail 2 previsao) ->
     Sample.parse_iso
       (map (fun row => Some (Data row)) (tabela_prev (previsao_futuro 2 previsao)))
       (Ts.strftime_Ymd (ds r)) = Some (ds r)).
  { intros r Hr. vm_compute in Hr.
    repeat (destruct Hr as [Hr|Hr]; [subst r; reflexivity|]). contradiction. }
  split; [exact H1|].
  exact (summary_table Sample.parse_iso E Posix Sample.cafe 2 Sample.serie_cafe
           Sample.serie_cafe previsao eq_refl eq_refl H1).
Defined.

(** ** The export (lines 171-177) *)

Module ExportFacts.

Lemma count_date (c : N) (s1 : str) :
  date_char c = false ->
  Forall (fun x => date_char x = true) s1 -> count_occ N.eq_dec s1 c = 0%nat.
Proof.
  intros Hc. induction 1 as [|x r Hx _ IH]; simpl; [reflexivity|].
  destruct (N.eq_dec x c) as [->|_]; [congruence|exact IH].
Qed.

Lemma count_row (c : N) (p : platform) (r : Pred Z) :
  date_char c = false -> count_occ N.eq_dec (linesep p) c = 0%nat ->
  count_occ N.eq_dec
    (csv_line p (csv_row (mkPrev (Ts.strftime_Ymd (ds r)) (yhat r) (yhat_lower r)
                                 (yhat_upper r)))) c
  = (3 * count_occ N.eq_dec (Text.lit ",") c)%nat.
Proof.
  intros Hc Hl. rewrite CsvFacts.row_text, !count_occ_app, Hl.
  rewrite (count_date c _ Hc (CsvFacts.strftime_Ymd_date _)).
  rewrite !(count_date c _ Hc (CsvFacts.of_Z_date _)). lia.
Qed.

Lemma count_rows (c : N) (p : platform) (futuro : list (Pred Z)) :
  date_char c = false -> count_occ N.eq_dec (linesep p) c = 0%nat ->
  count_occ N.eq_dec (flat_map (fun r => csv_line p (csv_row r)) (tabela_prev futuro)) c
  = (3 * count_occ N.eq_dec (Text.lit ",") c * List.length futuro)%nat.
Proof.
  intros Hc Hl. induction futuro as [|r rest IH]; [simpl; lia|].
  cbn [tabela_prev map flat_map]. fold (tabela_prev rest).
  rewrite count_occ_app, IH, (count_row c p r Hc Hl). cbn [List.length]. lia.
Qed.

End ExportFacts.

(** X18: the export needs no quoting: its text holds no quote character,
    and exactly three commas on the header line and on the line of each
    future period, so every line has four fields. *)
Theorem export_four_plain_fields (p : platform) (futuro : list (Pred Z)) :
  count_occ N.eq_dec (to_csv p (tabela_prev futuro)) 34%N = 0%nat
  /\ count_occ N.eq_dec (to_csv p (tabela_prev futuro)) 44%N
     = (3 * S (List.length futuro))%nat
  /\ count_occ N.eq_dec (csv_line p tabela_prev_columns) 44%N = 3%nat.
Proof.
  unfold to_csv. rewrite !count_occ_app.
  rewrite (ExportFacts.count_rows 34 p futuro eq_refl) by (now destruct p).
  rewrite (ExportFacts.count_rows 44 p futuro eq_refl) by (now destruct p).
  assert (H34 : count_occ N.eq_dec (csv_line p tabela_prev_columns) 34%N = 0%nat)
    by (now destruct p).
  assert (H44 : count_occ N.eq_dec (csv_line p tabela_prev_columns) 44%N = 3%nat)
    by (now destruct p).
  rewrite H34, H44. cbn [Text.lit count_occ].
  repeat split; simpl; lia.
Qed.

(** X19: the file name of the export tells the product: two products never
    get the same file name. *)
Theorem file_name_injective (p p' : str) : file_name p = file_name p' -> p = p'.
Proof.
  unfold file_name. intros H. apply app_inv_head in H. now apply app_inv_tail in H.
Qed.

Lemma file_name_injective_witness :
  file_name Sample.cafe = file_name (Text.lit "cafe")
  /\ Sample.cafe = Text.lit "cafe".
Proof.
  assert (H1 : file_name Sample.cafe = file_name (Text.lit "cafe")) by reflexivity.
  split; [exact H1|]. exact (file_name_injective _ _ H1).
Defined.
